(** * fetch-salesforce: a shallow embedding of [src/library.js]

    The session object returned by [salesforceSession] is modelled by
    explicit state passing.  JavaScript values are a small inductive type,
    the closure variables of the session are a record, the network is an
    oracle indexed by the number of calls made so far, and every function
    returns a completion (normal or thrown) together with the new state.
    The operations are [async] functions that await each transport call in
    sequence, so one operation is a sequential state transformer; the one
    place where a call is not awaited, in [insert], is marked there. *)

From Stdlib Require Import ZArith String Ascii List Bool Lia DecimalString.
From stdpp Require Import base option list gmap strings.
From Equations Require Import Equations.
Import ListNotations.

Local Open Scope string_scope.
Local Open Scope Z_scope.

(** ** JavaScript values and the built-ins the library uses *)

Module Js.

#[local] Set Warnings "-register-all".

(** Strings are sequences of 8-bit characters (ASCII text); numbers are the
    integer-valued ones; objects are association lists in insertion
    order.  No value is callable: JSON data carries no functions. *)
Inductive JsVal : Type :=
| JUndef
| JNull
| JBool (b : bool)
| JNum (z : Z)
| JStr (s : string)
| JArr (items : list JsVal)
| JObj (fields : list (string * JsVal)).

Abbreviation Obj := (list (string * JsVal)).

(** What a [throw] carries. *)
Inductive Exn : Type :=
| TypeError
| ReferenceError
| URIError
| ErrorObj (message : string)   (* throw new Error(message) *)
| Thrown (message : string).    (* throw "message" *)

Inductive Completion (A : Type) : Type :=
| Normal (a : A)
| Throw (e : Exn).
Arguments Normal {A} a.
Arguments Throw {A} e.

(** ToBoolean. *)
Definition truthy (v : JsVal) : bool :=
  match v with
  | JUndef | JNull => false
  | JBool b => b
  | JNum z => negb (z =? 0)
  | JStr s => negb (String.eqb s "")
  | JArr _ | JObj _ => true
  end.

(** [v != undefined] (loose inequality: null equals undefined). *)
Definition loosely_defined (v : JsVal) : bool :=
  match v with
  | JUndef | JNull => false
  | _ => true
  end.

Definition Array_isArray (v : JsVal) : bool :=
  match v with
  | JArr _ => true
  | _ => false
  end.

(** ToString, as used by [+] with a string operand. *)
Fixpoint ToString (v : JsVal) : string :=
  match v with
  | JUndef => "undefined"
  | JNull => "null"
  | JBool true => "true"
  | JBool false => "false"
  | JNum z => NilZero.string_of_int (Z.to_int z)
  | JStr s => s
  | JArr items =>
      (fix join (l : list JsVal) : string :=
         match l with
         | [] => ""
         | x :: rest =>
             let sx := match x with JUndef | JNull => "" | _ => ToString x end in
             match rest with
             | [] => sx
             | _ :: _ => sx +:+ "," +:+ join rest
             end
         end) items
  | JObj _ => "[object Object]"
  end.

Fixpoint lookup_field (k : string) (fields : Obj) : option JsVal :=
  match fields with
  | [] => None
  | (k', v) :: rest => if String.eqb k k' then Some v else lookup_field k rest
  end.

(** [o[k] = v] on a plain object: an existing key keeps its place. *)
Fixpoint set_field (k : string) (v : JsVal) (fields : Obj) : Obj :=
  match fields with
  | [] => [(k, v)]
  | (k', v') :: rest =>
      if String.eqb k k' then (k, v) :: rest else (k', v') :: set_field k v rest
  end.

(** [v.k] for the property names the library reads ([records],
    [nextRecordsUrl], [attributes], [type], [method], [results], ...):
    none of them lives on a built-in prototype. *)
Definition get (v : JsVal) (k : string) : Completion JsVal :=
  match v with
  | JUndef | JNull => Throw TypeError
  | JObj fields => Normal (default JUndef (lookup_field k fields))
  | _ => Normal JUndef
  end.

(** [v[0]]. *)
Definition get0 (v : JsVal) : Completion JsVal :=
  match v with
  | JUndef | JNull => Throw TypeError
  | JArr items => Normal (default JUndef (head items))
  | JStr (String c _) => Normal (JStr (String c ""))
  | JObj fields => Normal (default JUndef (lookup_field "0" fields))
  | _ => Normal JUndef
  end.

(** [a.concat(x)] for an array [a]: an array argument is spread one level,
    any other value is appended as one element. *)
Definition concat (a : list JsVal) (x : JsVal) : list JsVal :=
  match x with
  | JArr items => a ++ items
  | _ => a ++ [x]
  end.

(** Whether [v.concat] is callable: arrays and strings have the method. *)
Definition has_concat (v : JsVal) : bool :=
  match v with
  | JArr _ | JStr _ => true
  | _ => false
  end.

(** [s.split(sep)] with a one-character separator. *)
Fixpoint split (sep : ascii) (s : string) : list string :=
  match s with
  | EmptyString => [EmptyString]
  | String c s' =>
      if Ascii.eqb c sep then EmptyString :: split sep s'
      else match split sep s' with
           | piece :: pieces => String c piece :: pieces
           | [] => [String c EmptyString]
           end
  end.

Definition map_chars (f : ascii -> ascii) : string -> string :=
  fix go (s : string) : string :=
    match s with
    | EmptyString => EmptyString
    | String c s' => String (f c) (go s')
    end.

Definition upper_char (c : ascii) : ascii :=
  let n := nat_of_ascii c in
  if ((97 <=? n) && (n <=? 122))%nat then ascii_of_nat (n - 32) else c.

Definition toUpperCase : string -> string := map_chars upper_char.

Definition hex_digit (n : nat) : ascii :=
  if (n <? 10)%nat then ascii_of_nat (48 + n) else ascii_of_nat (55 + n).

(** The characters [encodeURIComponent] leaves alone:
    A-Z a-z 0-9 - _ . ! ~ * ' ( ) *)
Definition uri_unreserved (c : ascii) : bool :=
  let n := nat_of_ascii c in
  (((65 <=? n) && (n <=? 90)) || ((97 <=? n) && (n <=? 122))
   || ((48 <=? n) && (n <=? 57))
   || (n =? 45) || (n =? 95) || (n =? 46) || (n =? 33) || (n =? 126)
   || (n =? 42) || (n =? 39) || (n =? 40) || (n =? 41))%nat.

Fixpoint encodeURIComponent (s : string) : string :=
  match s with
  | EmptyString => EmptyString
  | String c s' =>
      if uri_unreserved c then String c (encodeURIComponent s')
      else
        let n := nat_of_ascii c in
        String "%" (String (hex_digit (n / 16)) (String (hex_digit (n mod 16))
          (encodeURIComponent s')))
  end.

(** Substring test, used to say that a message mentions a text. *)
Fixpoint is_prefix (p s : string) : bool :=
  match p, s with
  | EmptyString, _ => true
  | String a p', String b s' => Ascii.eqb a b && is_prefix p' s'
  | String _ _, EmptyString => false
  end.

Fixpoint is_infix (p s : string) : bool :=
  is_prefix p s ||
  match s with
  | EmptyString => false
  | String _ s' => is_infix p s'
  end.

End Js.
Export Js.

(** ** The session: closure variables, the returned object, the network *)

Module Session.

(** One call of [fetch(url, init)]: [req_init] is the parameter object
    handed to fetch (its [method], [headers], [body] and whatever else the
    caller put there).  [JSON.stringify(payload)] is represented by the
    payload value it encodes. *)
Record Request : Type := mkRequest {
  req_url : string;
  req_init : Obj;
}.

(** What the page around the script provides.
    - [decodeURIComponent] may raise URIError.
    - [declares_OAuthVarPairs]: the script is in strict mode and never
      declares [_OAuthVarPairs]; assigning it succeeds only if the page
      defines that global.
    - [outer_this]: the session's helpers are arrow functions, so [this]
      inside them is the [this] of the script's top level.
    - [fetch n req] is the outcome of the [n]-th transport call (lines
      59-60 taken together: the request and the decoding of its response);
      [None] when either throws. *)
Record Host : Type := mkHost {
  decodeURIComponent : string -> Completion string;
  declares_OAuthVarPairs : bool;
  outer_this : JsVal;
  fetch : nat -> Request -> option JsVal;
}.

(** The second argument of [salesforceSession]; [JUndef] is a key the
    caller left out. *)
Record Options : Type := mkOptions {
  opt_instanceUrl : JsVal;
  opt_servicesPath : JsVal;
  opt_version : JsVal;
}.

(** Closure variables that never change after construction. *)
Record Env : Type := mkEnv {
  _OAuthVars : gmap string JsVal;
  _servicesPath : string;
  version : JsVal;
}.

(** The properties of the returned object that its methods read or
    write.  [insertReults] is the property [insert] accumulates into and
    [searchResults] the one [search] returns; the code never writes the
    latter. *)
Record This : Type := mkThis {
  records : JsVal;
  searchRecords : JsVal;
  insertResults : JsVal;
  updateResults : JsVal;
  soql : JsVal;
  sosl : JsVal;
  this_version : JsVal;
  insertReults : JsVal;
  searchResults : JsVal;
}.

Record State : Type := mkState {
  _requests : Z;
  _requestErrors : Z;
  self : This;
  sent : list Request;
}.

Definition with_self (f : This -> This) (st : State) : State :=
  mkState (_requests st) (_requestErrors st) (f (self st)) (sent st).

Definition set_records (v : JsVal) (t : This) : This :=
  mkThis v (searchRecords t) (insertResults t) (updateResults t) (soql t)
    (sosl t) (this_version t) (insertReults t) (searchResults t).
Definition set_searchRecords (v : JsVal) (t : This) : This :=
  mkThis (records t) v (insertResults t) (updateResults t) (soql t)
    (sosl t) (this_version t) (insertReults t) (searchResults t).
Definition set_updateResults (v : JsVal) (t : This) : This :=
  mkThis (records t) (searchRecords t) (insertResults t) v (soql t)
    (sosl t) (this_version t) (insertReults t) (searchResults t).
Definition set_soql (v : JsVal) (t : This) : This :=
  mkThis (records t) (searchRecords t) (insertResults t) (updateResults t) v
    (sosl t) (this_version t) (insertReults t) (searchResults t).
Definition set_sosl (v : JsVal) (t : This) : This :=
  mkThis (records t) (searchRecords t) (insertResults t) (updateResults t)
    (soql t) v (this_version t) (insertReults t) (searchResults t).
Definition set_insertReults (v : JsVal) (t : This) : This :=
  mkThis (records t) (searchRecords t) (insertResults t) (updateResults t)
    (soql t) (sosl t) (this_version t) v (searchResults t).

(** [_requests++], [_requests--], [_requestErrors++]. *)
Definition incr_requests (st : State) : State :=
  mkState (_requests st + 1) (_requestErrors st) (self st) (sent st).
Definition decr_requests (st : State) : State :=
  mkState (_requests st - 1) (_requestErrors st) (self st) (sent st).
Definition incr_requestErrors (st : State) : State :=
  mkState (_requests st) (_requestErrors st + 1) (self st) (sent st).
Definition record_call (r : Request) (st : State) : State :=
  mkState (_requests st) (_requestErrors st) (self st) (sent st ++ [r]).

(** *** Construction (lines 8-35) *)

(** A parameter default applies when the argument is [undefined]. *)
Definition or_default (d : JsVal) (v : JsVal) : JsVal :=
  match v with
  | JUndef => d
  | _ => v
  end.

(** The loop of lines 30-33 over the [&]-separated pairs. *)
Fixpoint parse_pairs (h : Host) (pairs : list string)
    (vars : gmap string JsVal) : Completion (gmap string JsVal) :=
  match pairs with
  | [] => Normal vars
  | item :: rest =>
      let pair := split "=" item in
      match decodeURIComponent h (default "" (head pair)) with
      | Throw e => Throw e
      | Normal key =>
          (* pair[1] || '' *)
          match decodeURIComponent h (default "" (pair !! 1%nat)) with
          | Throw e => Throw e
          | Normal value => parse_pairs h rest (<[key := JStr value]> vars)
          end
      end
  end.

Definition initial_this (version : JsVal) : This :=
  mkThis JUndef JUndef JUndef JUndef JUndef JUndef version JUndef JUndef.

(** [salesforceSession(_OAuthUrl, options)].  The body re-declares
    [_servicesPath] with an initialiser (line 18), so the option of that
    name is overwritten; [var version] (line 25) has no initialiser and
    keeps the parameter's value. *)
Definition salesforceSession (h : Host) (_OAuthUrl : string) (o : Options)
    : Completion (Env * State) :=
  let _instanceUrl := or_default (JStr "https://test.salesforce.com") (opt_instanceUrl o) in
  let version := or_default (JStr "43.0") (opt_version o) in
  let _servicesPath := "/services/data/" in
  (* _OAuthUrl.split('#')[1].split('&') *)
  match split "#" _OAuthUrl !! 1%nat with
  | None => Throw TypeError
  | Some fragment =>
      let _OAuthVarPairs := split "&" fragment in
      if negb (declares_OAuthVarPairs h) then Throw ReferenceError
      else
        match parse_pairs h _OAuthVarPairs ∅ with
        | Throw e => Throw e
        | Normal vars =>
            let vars :=
              if truthy _instanceUrl then <["instance_url" := _instanceUrl]> vars
              else vars in
            Normal (mkEnv vars _servicesPath version,
                    mkState 0 0 (initial_this version) [])
        end
  end.

(** *** Private helpers *)

Definition var (env : Env) (k : string) : JsVal :=
  default JUndef (_OAuthVars env !! k).

(** [_url] (line 27); the parameter defaults to [''] when undefined. *)
Definition _url (env : Env) (path : JsVal) : string :=
  ToString (var env "instance_url") +:+ _servicesPath env +:+ "v"
  +:+ ToString (version env) +:+ "/" +:+ ToString (or_default (JStr "") path).

(** [_parameters] (lines 122-130): the caller's object gets fresh
    headers; without one a new object is made. *)
Definition httpheaders (env : Env) : Obj :=
  [("Authorization",
    JStr (ToString (var env "token_type") +:+ " " +:+ ToString (var env "access_token")))].

Definition _parameters (env : Env) (optionalParameters : option Obj) : Obj :=
  match optionalParameters with
  | Some o => set_field "headers" (JObj (httpheaders env)) o
  | None => [("headers", JObj (httpheaders env))]
  end.

(** Lines 50-56: the object handed to fetch. *)
Definition request_init (env : Env) (method : string) (payload : JsVal)
    (optionalParameters : option Obj) : Obj :=
  let o := set_field "method" (JStr method) (_parameters env optionalParameters) in
  if truthy payload then
    let headers := set_field "Content-Type" (JStr "application/json") (httpheaders env) in
    set_field "body" payload (set_field "headers" (JObj headers) o)
  else o.

Definition build_request (env : Env) (method : string) (action : JsVal)
    (payload : JsVal) (optionalParameters : option Obj) : Request :=
  mkRequest (_url env action) (request_init env method payload optionalParameters).

Definition request_failed (method : string) : Exn :=
  Thrown ("Salesforce " +:+ toUpperCase method +:+ " request failed!").

(** [_request] (lines 46-72).  [retry] is [0] on the first call (the
    code reads [undefined] as [0]).  The attempt is counted before the
    transport is called; the recursive call passes the same parameter
    object, as the previous attempt left it. *)
Equations? _request (h : Host) (env : Env) (method : string) (action : JsVal)
    (payload : JsVal) (optionalParameters : option Obj) (retry : nat)
    (st : State) : Completion JsVal * State by wf (3 - retry)%nat lt :=
_request h env method action payload optionalParameters retry st
  with fetch h (length (sent st))
         (build_request env method action payload optionalParameters) := {
  | Some response =>
      (Normal response,
       record_call (build_request env method action payload optionalParameters)
         (incr_requests st));
  | None with lt_dec retry 3 := {
    | left _ =>
        _request h env method action payload
          (Some (request_init env method payload optionalParameters)) (S retry)
          (incr_requestErrors
             (record_call (build_request env method action payload optionalParameters)
                (incr_requests st)));
    | right _ =>
        (Throw (request_failed method),
         incr_requestErrors
           (record_call (build_request env method action payload optionalParameters)
              (incr_requests st))) } }.
Proof. lia. Qed.

(** [this.batch(...)] inside [_get]: [this] is the outer [this], and no
    value found there is callable. *)
Definition call_outer_this_batch (h : Host) : Completion JsVal :=
  match get (outer_this h) "batch" with
  | Throw e => Throw e
  | Normal _ => Throw TypeError
  end.

(** [_get] (lines 81-90). *)
Definition _get (h : Host) (env : Env) (action : JsVal)
    (optionalParameters : option Obj) (st : State) : Completion JsVal * State :=
  if Array_isArray action then (call_outer_this_batch h, st)
  else if (2048 <? String.length (_url env action))%nat then
    (call_outer_this_batch h, st)
  else _request h env "get" action JNull optionalParameters 0 st.

(** [_post] (lines 100-102). *)
Definition _post (h : Host) (env : Env) (action : JsVal) (payload : JsVal)
    (optionalParameters : option Obj) (st : State) : Completion JsVal * State :=
  _request h env "post" action payload optionalParameters 0 st.

(** The caller's parameter object is one object: after a call it is the
    object last handed to fetch. *)
Definition params_after (optionalParameters : option Obj) (st : State) : option Obj :=
  match optionalParameters with
  | None => None
  | Some o => Some (default o (req_init <$> last (sent st)))
  end.

(** *** Public methods *)

(** The pagination loop of [query] and [search] (lines 155-158 and
    183-186).  Its body starts with
    [let results = await _get(results.nextRecordsUrl, ...)]: the
    initialiser reads the block-scoped [results] that this very statement
    declares, which is still uninitialised, so entering the body raises
    ReferenceError before [_get] is called. *)
Definition follow_cursors (results : JsVal) : Completion unit :=
  match get results "nextRecordsUrl" with
  | Throw e => Throw e
  | Normal next =>
      if loosely_defined next then Throw ReferenceError else Normal tt
  end.

(** [query] (lines 146-167).  An [undefined] first argument takes
    [this.soql]. *)
Definition query (h : Host) (env : Env) (mySoql : JsVal)
    (parameters : option Obj) (st : State) : Completion JsVal * State :=
  let st := with_self (set_soql (or_default (soql (self st)) mySoql)) st in
  let query := "query?q=" +:+ encodeURIComponent (ToString (soql (self st))) in
  let attempt : Completion JsVal * State :=
    let parameters := _parameters env parameters in
    match _get h env (JStr query) (Some parameters) st with
    | (Throw e, st) => (Throw e, st)
    | (Normal results, st) =>
        match get results "records" with
        | Throw e => (Throw e, st)
        | Normal page =>
            let st := with_self (set_records page) st in
            match follow_cursors results with
            | Throw e => (Throw e, st)
            | Normal _ => (Normal (records (self st)), st)
            end
        end
    end in
  match attempt with
  | (Throw _, st) =>
      (Throw (Thrown "Query failed!"), with_self (set_records (JBool false)) st)
  | done => done
  end.

(** [search] (lines 174-195); it returns [this.searchResults]. *)
Definition search (h : Host) (env : Env) (mySosl : JsVal)
    (parameters : option Obj) (st : State) : Completion JsVal * State :=
  let st := with_self (set_sosl (or_default (sosl (self st)) mySosl)) st in
  let search := "search?q=" +:+ encodeURIComponent (ToString (sosl (self st))) in
  let attempt : Completion JsVal * State :=
    let parameters := _parameters env parameters in
    match _get h env (JStr search) (Some parameters) st with
    | (Throw e, st) => (Throw e, st)
    | (Normal results, st) =>
        match get results "searchRecords" with
        | Throw e => (Throw e, st)
        | Normal page =>
            let st := with_self (set_searchRecords page) st in
            match follow_cursors results with
            | Throw e => (Throw e, st)
            | Normal _ => (Normal (searchResults (self st)), st)
            end
        end
    end in
  match attempt with
  | (Throw _, st) =>
      (Throw (Thrown "Search failed!"), with_self (set_searchRecords (JBool false)) st)
  | done => done
  end.

(** Line 207: every entry becomes a GET sub-request. *)
Definition as_get (env : Env) (entry : JsVal) : JsVal :=
  JObj [("method", JStr "GET");
        ("url", JStr ("v" +:+ ToString (version env) +:+ "/" +:+ ToString entry))].

(** Line 217.  The first truthy response is kept.  For a later one the
    code evaluates [batchResponses.results.concat(thisResponse.results)]
    and drops what it returns: the statement only matters through the
    TypeError it raises when there is nothing to call or to read. *)
Definition keep_response (batchResponses thisResponse : JsVal) : Completion JsVal :=
  if negb (truthy batchResponses) then Normal thisResponse
  else
    match get batchResponses "results" with
    | Throw e => Throw e
    | Normal results =>
        match get thisResponse "results" with
        | Throw e => Throw e
        | Normal _ =>
            if has_concat results then Normal batchResponses else Throw TypeError
        end
    end.

Definition batch_failed : Exn := Thrown "Salesforce batch request failed!".

(** The loop of [batch] (lines 212-225) over the caller's array, which
    [splice(0,25)] shortens in place.  The result carries what is left of
    the array. *)
Equations? batch_loop (h : Host) (env : Env) (optionalParameters : option Obj)
    (requests : list JsVal) (batchResponses : JsVal) (st : State)
    : Completion JsVal * State * list JsVal by wf (length requests) lt :=
batch_loop h env optionalParameters [] batchResponses st :=
  (Normal batchResponses, st, []);
batch_loop h env optionalParameters (r :: rs) batchResponses st
  with _post h env (JStr "composite/batch/")
         (JObj [("batchRequests", JArr (take 25 (r :: rs)))])
         optionalParameters st := {
  | (Throw _, st1) => (Throw batch_failed, st1, drop 25 (r :: rs));
  | (Normal thisResponse, st1) with keep_response batchResponses thisResponse := {
    | Throw _ => (Throw batch_failed, st1, drop 25 (r :: rs));
    | Normal kept =>
        batch_loop h env (params_after optionalParameters st1)
          (drop 25 (r :: rs)) kept (decr_requests st1) } }.
Proof. simpl. rewrite length_drop. lia. Qed.

(** [batch] (lines 203-228).  The third component is the caller's array
    after the call. *)
Definition batch (h : Host) (env : Env) (requests : list JsVal)
    (optionalParameters : option Obj) (st : State)
    : Completion JsVal * State * list JsVal :=
  match get (default JUndef (head requests)) "method" with
  | Throw e => (Throw e, st, requests)
  | Normal m =>
      let requests := if negb (truthy m) then map (as_get env) requests else requests in
      match batch_loop h env optionalParameters requests (JBool false) st with
      | (Normal batchResponses, st, requests) =>
          (Normal batchResponses, incr_requests st, requests)
      | failed => failed
      end
  end.

(** Line 237 (and 271): a single record is wrapped in a new array. *)
Definition promote (oRecords : JsVal) : JsVal :=
  let has_type :=
    truthy oRecords &&
    match get oRecords "attributes" with
    | Normal attributes =>
        truthy attributes &&
        match get attributes "type" with
        | Normal type => truthy type
        | Throw _ => false
        end
    | Throw _ => false
    end in
  if has_type then JArr [oRecords] else oRecords.

(** Lines 239-240 (and 273-274): the guard, then the type of the first
    record. *)
Definition check_records (message : string) (oRecords : JsVal) : Completion JsVal :=
  if negb (truthy oRecords) then Throw (ErrorObj message)
  else if negb (Array_isArray oRecords) then Throw (ErrorObj message)
  else
    match get0 oRecords with
    | Throw e => Throw e
    | Normal first =>
        match get first "attributes" with
        | Throw e => Throw e
        | Normal attributes =>
            if negb (truthy attributes) then Throw (ErrorObj message)
            else
              match get attributes "type" with
              | Throw e => Throw e
              | Normal type =>
                  if negb (truthy type) then Throw (ErrorObj message)
                  else Normal type
              end
        end
    end.

Definition items_of (v : JsVal) : list JsVal :=
  match v with
  | JArr items => items
  | _ => []
  end.

(** The caller's argument after the call: a promoted record is left as it
    was (the array around it is the method's own), an array is what the
    loop left of it. *)
Definition argument_after (given : JsVal) (remaining : list JsVal) : JsVal :=
  match given with
  | JArr _ => JArr remaining
  | _ => given
  end.

(** In [insert] the awaited expression is [_post(url, payload).results]:
    the property of a promise, which is [undefined].  The call to [_post]
    is started and not awaited: it counts the request and hands it to
    fetch, and what follows (the response, the error count, the retries)
    runs detached from [insert], which never observes it; that part is
    not in this model. *)
Definition _post_detached (env : Env) (action : JsVal) (payload : JsVal)
    (st : State) : State :=
  record_call (build_request env "post" action payload None) (incr_requests st).

(** The loop of [insert] (lines 249-253). *)
Equations? insert_loop (env : Env) (url : string) (oRecords : list JsVal)
    (st : State) : State * list JsVal by wf (length oRecords) lt :=
insert_loop env url [] st := (st, []);
insert_loop env url (r :: rs) st :=
  let st1 :=
    _post_detached env (JStr url) (JObj [("records", JArr (take 200 (r :: rs)))]) st in
  insert_loop env url (drop 200 (r :: rs))
    (with_self (set_insertReults
       (JArr (concat (items_of (insertReults (self st1))) JUndef))) st1).
Proof. simpl. rewrite length_drop. lia. Qed.

(** [insert] (lines 235-262).  Nothing in its [try] block can throw (the
    post is not awaited), so the [catch] of lines 255-261 is never
    entered. *)
Definition insert (h : Host) (env : Env) (oRecords : JsVal) (st : State)
    : Completion JsVal * State * JsVal :=
  match check_records "No valid records to insert!" (promote oRecords) with
  | Throw e => (Throw e, st, oRecords)
  | Normal type =>
      let url := "composite/tree/" +:+ ToString type +:+ "/" in
      let st := with_self (set_insertReults (JArr [])) st in
      let '(st, remaining) := insert_loop env url (items_of (promote oRecords)) st in
      (Normal (insertReults (self st)), st, argument_after oRecords remaining)
  end.

(** The loop of [update] (lines 283-287); each chunk is awaited. *)
Equations? update_loop (h : Host) (env : Env) (oRecords : list JsVal)
    (st : State) : Completion unit * State * list JsVal
    by wf (length oRecords) lt :=
update_loop h env [] st := (Normal tt, st, []);
update_loop h env (r :: rs) st
  with _post h env (JStr "composite/sobjects?_HttpMethod=PATCH")
         (JObj [("records", JArr (take 200 (r :: rs)))]) None st := {
  | (Throw e, st1) => (Throw e, st1, drop 200 (r :: rs));
  | (Normal response, st1) =>
      update_loop h env (drop 200 (r :: rs))
        (with_self (set_updateResults
           (JArr (concat (items_of (updateResults (self st1))) response))) st1) }.
Proof. simpl. rewrite length_drop. lia. Qed.

(** [update] (lines 269-296). *)
Definition update (h : Host) (env : Env) (oRecords : JsVal) (st : State)
    : Completion JsVal * State * JsVal :=
  match check_records "No valid records to update!" (promote oRecords) with
  | Throw e => (Throw e, st, oRecords)
  | Normal type =>
      let st := with_self (set_updateResults (JArr [])) st in
      match update_loop h env (items_of (promote oRecords)) st with
      | (Throw _, st, remaining) =>
          (Throw (Thrown ("Salesforce " +:+ ToString type +:+ " update failed!")),
           with_self (set_updateResults (JBool false)) st,
           argument_after oRecords remaining)
      | (Normal _, st, remaining) =>
          (Normal (updateResults (self st)), st, argument_after oRecords remaining)
      end
  end.

End Session.
Export Session.

(** ** Concrete pages, transports and inputs *)

Module Scenario.

Definition hex_value (c : ascii) : option nat :=
  let n := nat_of_ascii c in
  if ((48 <=? n) && (n <=? 57))%nat then Some (n - 48)%nat
  else if ((65 <=? n) && (n <=? 70))%nat then Some (n - 55)%nat
  else if ((97 <=? n) && (n <=? 102))%nat then Some (n - 87)%nat
  else None.

(** A page's [decodeURIComponent], for text whose escapes denote ASCII
    characters: a [%] that is not followed by two hexadecimal digits
    raises URIError. *)
Fixpoint decode_escapes (s : string) : Completion string :=
  match s with
  | EmptyString => Normal EmptyString
  | String "%" (String a (String b rest)) =>
      match hex_value a, hex_value b, decode_escapes rest with
      | Some hi, Some lo, Normal tail =>
          Normal (String (ascii_of_nat (16 * hi + lo)) tail)
      | Some _, Some _, Throw e => Throw e
      | _, _, _ => Throw URIError
      end
  | String "%" _ => Throw URIError
  | String c rest =>
      match decode_escapes rest with
      | Normal tail => Normal (String c tail)
      | Throw e => Throw e
      end
  end.

(** A page that defines the global the constructor assigns, with the
    global object (which has no [batch]) as top-level [this]. *)
Definition page (transport : nat -> Request -> option JsVal) : Host :=
  mkHost decode_escapes true (JObj []) transport.

Definition redirect_url : string :=
  "https://app.example/landing#access_token=00D%21AQ&token_type=Bearer&state".

Definition demo_env : Env :=
  mkEnv (<["instance_url" := JStr "https://test.salesforce.com"]>
           (<["state" := JStr ""]>
              (<["token_type" := JStr "Bearer"]>
                 (<["access_token" := JStr "00D!AQ"]> ∅))))
        "/services/data/" (JStr "43.0").

Definition fresh : State := mkState 0 0 (initial_this (JStr "43.0")) [].

(** The two pages of the pagination scenario. *)
Definition page1 : JsVal :=
  JObj [("records", JArr [JObj [("Id", JStr "1")]]); ("nextRecordsUrl", JStr "/next")].
Definition page2 : JsVal :=
  JObj [("records", JArr [JObj [("Id", JStr "2")]])].

Definition paged_transport (n : nat) (r : Request) : option JsVal :=
  if String.eqb (req_url r) (_url demo_env (JStr "/next")) then Some page2
  else Some page1.

(** Fails three times, then answers. *)
Definition flaky_transport (n : nat) (r : Request) : option JsVal :=
  if (n <? 3)%nat then None else Some page2.

Definition dead_transport (n : nat) (r : Request) : option JsVal := None.

(** A composite-batch service: one result per sub-request of the body. *)
Definition sub_result (sub : JsVal) : JsVal :=
  JObj [("statusCode", JNum 200);
        ("result", match get sub "url" with Normal u => u | Throw _ => JNull end)].

Definition batch_reply (r : Request) : JsVal :=
  match lookup_field "body" (req_init r) with
  | Some (JObj [(_, JArr subs)]) =>
      JObj [("hasErrors", JBool false); ("results", JArr (map sub_result subs))]
  | _ => JArr []
  end.

Definition batch_transport (n : nat) (r : Request) : option JsVal :=
  Some (batch_reply r).

Definition paths (n : nat) : list JsVal :=
  map (fun i => JStr ("sobjects/Contact/" +:+ NilZero.string_of_uint (Nat.to_uint i)))
      (seq 0 n).

Fixpoint replicate (n : nat) (c : ascii) : string :=
  match n with
  | O => EmptyString
  | S n' => String c (replicate n' c)
  end.

Definition long_soql : string :=
  "SELECT Id FROM Contact WHERE Name = '" +:+ replicate 2100 "a" +:+ "'".

Definition contact (name : string) : JsVal :=
  JObj [("attributes", JObj [("type", JStr "Contact")]); ("Name", JStr name)].

(** A redirect whose fragment names [token_type] twice and carries an
    [instance_url], and the closure it is read into. *)
Definition twice_url : string :=
  "https://app.example/cb#token_type=MAC&access_token=A%20B&token_type=Bearer&instance_url=https%3A%2F%2Fna1.salesforce.com".

Definition twice_env : Env :=
  mkEnv (<["instance_url" := JStr "https://test.salesforce.com"]>
           (<["token_type" := JStr "Bearer"]>
              (<["access_token" := JStr "A B"]> ∅)))
        "/services/data/" (JStr "43.0").

(** A transport that answers every call with the same value. *)
Definition constant_transport (v : JsVal) (n : nat) (r : Request) : option JsVal :=
  Some v.

End Scenario.
Import Scenario.

(** ** Vocabulary of the properties *)

Module Terms.

(** A transport that answers every call. *)
Definition never_failing (h : Host) : Prop :=
  forall n r, fetch h n r <> None.

(** Number of chunks of at most [size] entries that cover [n] entries. *)
Definition chunks (n size : nat) : nat := ((n + size - 1) / size)%nat.

(** Whether the message of an error contains a text. *)
Definition mentions (e : Exn) (text : string) : bool :=
  match e with
  | ErrorObj message | Thrown message => is_infix text message
  | _ => false
  end.

Fixpoint has_char (c : ascii) (s : string) : bool :=
  match s with
  | EmptyString => false
  | String c' s' => Ascii.eqb c' c || has_char c s'
  end.

(** The type discriminator of a record, [record.attributes.type];
    undefined when the record has none. *)
Definition type_of (record : JsVal) : JsVal :=
  match record with
  | JObj fields =>
      match lookup_field "attributes" fields with
      | Some (JObj attributes) => default JUndef (lookup_field "type" attributes)
      | _ => JUndef
      end
  | _ => JUndef
  end.

(** Inputs of [insert] and [update] that carry no valid records: a
    missing input, one that is not an array even after a single record
    has been wrapped, and an array whose first element is a value
    without a type discriminator. *)
Inductive invalid_records : JsVal -> Prop :=
| records_missing (v : JsVal) :
    loosely_defined v = false -> invalid_records v
| records_not_array (v : JsVal) :
    Array_isArray (promote v) = false -> invalid_records v
| records_untyped (first : JsVal) (rest : list JsVal) :
    loosely_defined first = true ->
    truthy (type_of first) = false ->
    invalid_records (JArr (first :: rest)).

(** What a request carries: its body, and the sub-requests of a
    composite-batch body. *)
Definition body_of (q : Request) : JsVal :=
  default JUndef (lookup_field "body" (req_init q)).

Definition sub_requests_of (q : Request) : list JsVal :=
  match get (body_of q) "batchRequests" with
  | Normal subs => items_of subs
  | Throw _ => []
  end.

Definition method_of (q : Request) : JsVal :=
  default JUndef (lookup_field "method" (req_init q)).

(** A call that is handed an array of the caller's. *)
Inductive Call : Type :=
| Batch (requests : list JsVal) (optionalParameters : option Obj)
| Insert (oRecords : list JsVal)
| Update (oRecords : list JsVal).

(** The outcome of a call, the state it leaves, and the caller's array as
    the call leaves it. *)
Definition run (h : Host) (env : Env) (c : Call) (st : State)
    : Completion JsVal * State * list JsVal :=
  match c with
  | Batch requests optionalParameters => batch h env requests optionalParameters st
  | Insert oRecords =>
      let '(r, st', argument) := insert h env (JArr oRecords) st in
      (r, st', items_of argument)
  | Update oRecords =>
      let '(r, st', argument) := update h env (JArr oRecords) st in
      (r, st', items_of argument)
  end.

(** The [Authorization] header a request carries. *)
Definition authorization_of (q : Request) : JsVal :=
  match lookup_field "headers" (req_init q) with
  | Some headers =>
      match get headers "Authorization" with
      | Normal v => v
      | Throw _ => JUndef
      end
  | None => JUndef
  end.

(** The records of an insert or update body. *)
Definition records_of (q : Request) : list JsVal :=
  match get (body_of q) "records" with
  | Normal items => items_of items
  | Throw _ => []
  end.

(** The two parts of a [key=value] item of the fragment, as lines 31-32
    read them: [pair[0]] and [pair[1] || '']. *)
Definition key_part (item : string) : string := default "" (head (split "=" item)).
Definition value_part (item : string) : string :=
  default "" (split "=" item !! 1%nat).

(** The transport's answers to the requests [qs], issued in this order
    from call number [n] on. *)
Fixpoint answers (h : Host) (n : nat) (qs : list Request) : list JsVal :=
  match qs with
  | [] => []
  | q :: rest => default JUndef (fetch h n q) :: answers h (S n) rest
  end.

(** The headers a request has with a payload. *)
Definition json_headers (env : Env) : Obj :=
  httpheaders env ++ [("Content-Type", JStr "application/json")].

(** An item of the fragment whose two parts the page can decode. *)
Definition decodes (h : Host) (item : string) : Prop :=
  (exists k, decodeURIComponent h (key_part item) = Normal k)
  /\ (exists v, decodeURIComponent h (value_part item) = Normal v).

(** The calls a user awaits one after another.  [insert] is left out:
    its posts run detached from the call. *)
Inductive Operation : Type :=
| DoQuery (mySoql : JsVal) (parameters : option Obj)
| DoSearch (mySosl : JsVal) (parameters : option Obj)
| DoBatch (requests : list JsVal) (optionalParameters : option Obj)
| DoUpdate (oRecords : JsVal).

(** The state a call leaves, whether it resolves or fails. *)
Definition perform (h : Host) (env : Env) (o : Operation) (st : State) : State :=
  match o with
  | DoQuery mySoql parameters => snd (query h env mySoql parameters st)
  | DoSearch mySosl parameters => snd (search h env mySosl parameters st)
  | DoBatch requests optionalParameters =>
      snd (fst (batch h env requests optionalParameters st))
  | DoUpdate oRecords => snd (fst (update h env oRecords st))
  end.

Definition perform_all (h : Host) (env : Env) (os : list Operation) (st : State)
    : State :=
  fold_left (fun st o => perform h env o st) os st.

(** What every request on the wire looks like: a GET or a POST, to a URL
    of the session, with the Authorization header of the credential set. *)
Definition wire (env : Env) (q : Request) : Prop :=
  (method_of q = JStr "get" \/ method_of q = JStr "post")
  /\ authorization_of q
     = JStr (ToString (var env "token_type") +:+ " "
             +:+ ToString (var env "access_token"))
  /\ exists action, req_url q = _url env action.

(** From [st] to [st'] requests were only added, all of them as [wire]
    describes, and the counters moved in step: no more errors than
    requests counted, no more requests counted than calls made. *)
Definition accounted (env : Env) (st st' : State) : Prop :=
  exists new,
    sent st' = (sent st ++ new)%list
    /\ Forall (wire env) new
    /\ 0 <= _requestErrors st' - _requestErrors st
    /\ _requestErrors st' - _requestErrors st <= _requests st' - _requests st
    /\ _requests st' - _requests st <= Z.of_nat (length new).

End Terms.
Import Terms.

(** ** Properties *)

(** *** Unfolding the recursive definitions *)

Lemma _request_unfold h env method action payload op retry st :
  _request h env method action payload op retry st =
  let req := build_request env method action payload op in
  let st1 := record_call req (incr_requests st) in
  match fetch h (length (sent st)) req with
  | Some response => (Normal response, st1)
  | None =>
      if lt_dec retry 3 then
        _request h env method action payload
          (Some (request_init env method payload op)) (S retry)
          (incr_requestErrors st1)
      else (Throw (request_failed method), incr_requestErrors st1)
  end.
Proof.
  simp _request. cbn zeta.
  destruct (fetch h _ _); simpl; [reflexivity|].
  destruct (lt_dec retry 3); reflexivity.
Qed.

Lemma batch_loop_cons h env op r rs br st :
  batch_loop h env op (r :: rs) br st =
  match _post h env (JStr "composite/batch/")
          (JObj [("batchRequests", JArr (take 25 (r :: rs)))]) op st with
  | (Throw _, st1) => (Throw batch_failed, st1, drop 25 (r :: rs))
  | (Normal thisResponse, st1) =>
      match keep_response br thisResponse with
      | Throw _ => (Throw batch_failed, st1, drop 25 (r :: rs))
      | Normal kept =>
          batch_loop h env (params_after op st1) (drop 25 (r :: rs)) kept
            (decr_requests st1)
      end
  end.
Proof.
  simp batch_loop.
  destruct (_post h env _ _ op st) as [[resp|e] st1]; simpl; [|reflexivity].
  destruct (keep_response br resp); reflexivity.
Qed.

Lemma update_loop_cons h env r rs st :
  update_loop h env (r :: rs) st =
  match _post h env (JStr "composite/sobjects?_HttpMethod=PATCH")
          (JObj [("records", JArr (take 200 (r :: rs)))]) None st with
  | (Throw e, st1) => (Throw e, st1, drop 200 (r :: rs))
  | (Normal response, st1) =>
      update_loop h env (drop 200 (r :: rs))
        (with_self (set_updateResults
           (JArr (concat (items_of (updateResults (self st1))) response))) st1)
  end.
Proof.
  simp update_loop.
  destruct (_post h env _ _ None st) as [[resp|e] st1]; reflexivity.
Qed.

(** *** The retry loop of [_request] *)

Section Retry.
Variables (h : Host) (env : Env) (method : string) (action payload : JsVal).

(** [k] failures followed by an answer: [k + 1] attempts, all counted. *)
Lemma request_retries (k : nat) :
  forall (op : option Obj) (retry : nat) (st : State) (v : JsVal),
    (retry + k <= 3)%nat ->
    (forall i r, (i < k)%nat -> fetch h (length (sent st) + i) r = None) ->
    (forall r, fetch h (length (sent st) + k) r = Some v) ->
    exists st',
      _request h env method action payload op retry st = (Normal v, st')
      /\ _requests st' = _requests st + Z.of_nat k + 1
      /\ _requestErrors st' = _requestErrors st + Z.of_nat k
      /\ length (sent st') = (length (sent st) + k + 1)%nat
      /\ self st' = self st.
Proof.
  induction k as [|k IH]; intros op retry st v Hle Hfail Hok.
  - rewrite _request_unfold. cbn zeta.
    specialize (Hok (build_request env method action payload op)).
    rewrite Nat.add_0_r in Hok. rewrite Hok.
    eexists; split; [reflexivity|]. simpl.
    rewrite length_app. simpl. repeat split; lia.
  - rewrite _request_unfold. cbn zeta.
    pose proof (Hfail 0%nat (build_request env method action payload op)
                  ltac:(lia)) as H0.
    rewrite Nat.add_0_r in H0. rewrite H0.
    destruct (lt_dec retry 3) as [_|Hge]; [|lia].
    set (st1 := incr_requestErrors _).
    assert (Hlen : length (sent st1) = S (length (sent st))).
    { subst st1. simpl. rewrite length_app. simpl. lia. }
    destruct (IH (Some (request_init env method payload op)) (S retry) st1 v)
      as (st' & Heq & Hreq & Herr & Hsent & Hself).
    + lia.
    + intros i r Hi. rewrite Hlen.
      replace (S (length (sent st)) + i)%nat with (length (sent st) + S i)%nat by lia.
      apply Hfail. lia.
    + intros r. rewrite Hlen.
      replace (S (length (sent st)) + k)%nat with (length (sent st) + S k)%nat by lia.
      apply Hok.
    + exists st'. split; [exact Heq|].
      rewrite Hreq, Herr, Hsent, Hself, Hlen. subst st1. simpl.
      repeat split; lia.
Qed.

(** Failures up to the last permitted attempt: the call gives up. *)
Lemma request_gives_up (j : nat) :
  forall (op : option Obj) (retry : nat) (st : State),
    (retry + j = 3)%nat ->
    (forall i r, (i <= j)%nat -> fetch h (length (sent st) + i) r = None) ->
    exists st',
      _request h env method action payload op retry st
        = (Throw (request_failed method), st')
      /\ _requests st' = _requests st + Z.of_nat j + 1
      /\ _requestErrors st' = _requestErrors st + Z.of_nat j + 1
      /\ length (sent st') = (length (sent st) + j + 1)%nat
      /\ self st' = self st.
Proof.
  induction j as [|j IH]; intros op retry st Hsum Hfail.
  - rewrite _request_unfold. cbn zeta.
    pose proof (Hfail 0%nat (build_request env method action payload op)
                  ltac:(lia)) as H0.
    rewrite Nat.add_0_r in H0. rewrite H0.
    destruct (lt_dec retry 3) as [Hlt|_]; [lia|].
    eexists; split; [reflexivity|]. simpl.
    rewrite length_app. simpl. repeat split; lia.
  - rewrite _request_unfold. cbn zeta.
    pose proof (Hfail 0%nat (build_request env method action payload op)
                  ltac:(lia)) as H0.
    rewrite Nat.add_0_r in H0. rewrite H0.
    destruct (lt_dec retry 3) as [_|Hge]; [|lia].
    set (st1 := incr_requestErrors _).
    assert (Hlen : length (sent st1) = S (length (sent st))).
    { subst st1. simpl. rewrite length_app. simpl. lia. }
    destruct (IH (Some (request_init env method payload op)) (S retry) st1)
      as (st' & Heq & Hreq & Herr & Hsent & Hself).
    + lia.
    + intros i r Hi. rewrite Hlen.
      replace (S (length (sent st)) + i)%nat with (length (sent st) + S i)%nat by lia.
      apply Hfail. lia.
    + exists st'. split; [exact Heq|].
      rewrite Hreq, Herr, Hsent, Hself, Hlen. subst st1. simpl.
      repeat split; lia.
Qed.
End Retry.

(** *** C2 and C5: what a call to [_request] counts *)

(** C2, as the code has it: each attempt is counted as a request.  When
    the transport fails the next [k <= 3] calls and answers the one after,
    the call returns that answer, the request counter has grown by
    [k + 1] (one per attempt, not one per logical call), the error counter
    by [k], and [k + 1] requests were handed to the transport. *)
Theorem C2_request_counter_counts_attempts
    (h : Host) (env : Env) (method : string) (action payload : JsVal)
    (op : option Obj) (st : State) (k : nat) (v : JsVal) :
  (k <= 3)%nat ->
  (forall i r, (i < k)%nat -> fetch h (length (sent st) + i) r = None) ->
  (forall r, fetch h (length (sent st) + k) r = Some v) ->
  exists st',
    _request h env method action payload op 0 st = (Normal v, st')
    /\ _requests st' = _requests st + Z.of_nat k + 1
    /\ _requestErrors st' = _requestErrors st + Z.of_nat k
    /\ length (sent st') = (length (sent st) + k + 1)%nat.
Proof.
  intros Hk Hfail Hok.
  destruct (request_retries h env method action payload k op 0 st v)
    as (st' & Heq & Hreq & Herr & Hsent & _); auto.
  exists st'. auto.
Qed.

(** Three failures and then an answer: four requests are counted. *)
Lemma C2_three_failures_witness :
  exists st',
    _request (page flaky_transport) demo_env "get" (JStr "query?q=x") JNull None 0 fresh
      = (Normal page2, st')
    /\ _requests st' = _requests fresh + Z.of_nat 3 + 1
    /\ _requestErrors st' = _requestErrors fresh + Z.of_nat 3
    /\ length (sent st') = (length (sent fresh) + 3 + 1)%nat.
Proof.
  apply (C2_request_counter_counts_attempts (page flaky_transport) demo_env
           "get" (JStr "query?q=x") JNull None fresh 3 page2).
  - lia.
  - intros i r Hi. simpl. unfold flaky_transport.
    destruct (Nat.ltb_spec i 3); [reflexivity | lia].
  - intros r. reflexivity.
Defined.

(** C2 as stated fails: with a transport that fails exactly three times
    and then succeeds, the call succeeds and the error counter grows by 3,
    but the request counter grows by 4, not by 1. *)
Lemma C2_counterexample :
  let '(r, st') :=
    _request (page flaky_transport) demo_env "get" (JStr "query?q=x") JNull None 0 fresh in
  r = Normal page2
  /\ _requestErrors st' - _requestErrors fresh = 3
  /\ _requests st' - _requests fresh = 4
  /\ _requests st' - _requests fresh <> 1.
Proof. vm_compute. repeat split; intros H; discriminate H. Qed.

(** C5, as the code has it: when the transport fails the next four
    calls, [_request] makes exactly four attempts and throws the string
    ["Salesforce " + METHOD + " request failed!"], which depends on the
    method alone, whatever the action; and a [query] whose URL fits in 2048
    characters makes the same four attempts, stores [false] (falsy) in
    [records] and throws ["Query failed!"]. *)
Theorem C5_four_failures_surface_request_failed
    (h : Host) (env : Env) (method : string) (action payload : JsVal)
    (op : option Obj) (mySoql : JsVal) (parameters : option Obj) (st : State) :
  (forall i r, (i < 4)%nat -> fetch h (length (sent st) + i) r = None) ->
  (String.length
     (_url env (JStr ("query?q=" +:+
        encodeURIComponent (ToString (or_default (soql (self st)) mySoql)))))
   <= 2048)%nat ->
  (exists st1,
      _request h env method action payload op 0 st
        = (Throw (Thrown ("Salesforce " +:+ toUpperCase method +:+ " request failed!")), st1)
      /\ length (sent st1) = (length (sent st) + 4)%nat
      /\ _requestErrors st1 = _requestErrors st + 4)
  /\ (exists st2,
      query h env mySoql parameters st = (Throw (Thrown "Query failed!"), st2)
      /\ records (self st2) = JBool false
      /\ truthy (records (self st2)) = false
      /\ length (sent st2) = (length (sent st) + 4)%nat).
Proof.
  intros Hfail Hlen. split.
  - destruct (request_gives_up h env method action payload 3 op 0 st)
      as (st1 & Heq & _ & Herr & Hsent & _).
    + reflexivity.
    + intros i r Hi. apply Hfail. lia.
    + exists st1. split; [exact Heq|]. split; [lia|]. simpl in Herr. lia.
  - unfold query.
    set (st0 := with_self _ st).
    set (q := JStr _).
    assert (Hq : _get h env q (Some (_parameters env parameters)) st0
                 = _request h env "get" q JNull (Some (_parameters env parameters)) 0 st0).
    { unfold _get. subst q. simpl Array_isArray. cbv iota.
      destruct (Nat.ltb_spec 2048
                  (String.length (_url env (JStr ("query?q=" +:+
                     encodeURIComponent (ToString (soql (self st0)))))))) as [Hbig|_];
        [|reflexivity].
      subst st0. simpl in Hbig. lia. }
    destruct (request_gives_up h env "get" q JNull 3
                (Some (_parameters env parameters)) 0 st0)
      as (st2 & Heq & _ & _ & Hsent & _).
    + reflexivity.
    + intros i r Hi. subst st0. simpl. apply Hfail. lia.
    + rewrite Hq, Heq.
      eexists. split; [reflexivity|]. simpl.
      repeat split. rewrite Hsent. subst st0. simpl. lia.
Qed.

(** A transport that never answers, at a short query. *)
Lemma C5_dead_transport_witness :
  (exists st1,
      _request (page dead_transport) demo_env "get" (JStr "query?q=x") JNull None 0 fresh
        = (Throw (Thrown ("Salesforce " +:+ toUpperCase "get" +:+ " request failed!")), st1)
      /\ length (sent st1) = (length (sent fresh) + 4)%nat
      /\ _requestErrors st1 = _requestErrors fresh + 4)
  /\ (exists st2,
      query (page dead_transport) demo_env (JStr "SELECT Id FROM Contact") None fresh
        = (Throw (Thrown "Query failed!"), st2)
      /\ records (self st2) = JBool false
      /\ truthy (records (self st2)) = false
      /\ length (sent st2) = (length (sent fresh) + 4)%nat).
Proof.
  apply (C5_four_failures_surface_request_failed (page dead_transport) demo_env
           "get" (JStr "query?q=x") JNull None (JStr "SELECT Id FROM Contact") None fresh).
  - intros i r Hi. reflexivity.
  - apply Nat.leb_le. vm_compute. reflexivity.
Defined.

(** C5 as stated fails: after four failed attempts the error that
    [_request] throws is ["Salesforce GET request failed!"]; it is the
    same for two different actions and contains neither of them. *)
Lemma C5_counterexample :
  let failure (action : string) :=
    fst (_request (page dead_transport) demo_env "get" (JStr action) JNull None 0 fresh) in
  failure "query?q=SELECT%20Id%20FROM%20Contact" = Throw (Thrown "Salesforce GET request failed!")
  /\ failure "sobjects/Account/describe" = Throw (Thrown "Salesforce GET request failed!")
  /\ mentions (Thrown "Salesforce GET request failed!") "GET" = true
  /\ mentions (Thrown "Salesforce GET request failed!")
       "query?q=SELECT%20Id%20FROM%20Contact" = false
  /\ mentions (Thrown "Salesforce GET request failed!") "sobjects/Account/describe" = false.
Proof. vm_compute. repeat split. Qed.

(** *** C6, C4 and C10: the chunk loops *)

Lemma post_never_failing h env action payload op st :
  never_failing h ->
  exists v,
    _post h env action payload op st
    = (Normal v, record_call (build_request env "post" action payload op)
                   (incr_requests st)).
Proof.
  intros Hnf. unfold _post. rewrite _request_unfold. cbn zeta.
  destruct (fetch h _ _) as [v|] eqn:Hf.
  - exists v. reflexivity.
  - exfalso. exact (Hnf _ _ Hf).
Qed.

Lemma chunks_step (n : nat) :
  (chunks (S n - 25) 25 + 1 = chunks (S n) 25)%nat.
Proof.
  unfold chunks.
  destruct (le_lt_dec 25 n) as [Hbig|Hsmall].
  - replace (S n + 25 - 1)%nat with (S n - 25 + 25 - 1 + 1 * 25)%nat by lia.
    rewrite Nat.div_add by lia. lia.
  - replace (S n - 25)%nat with 0%nat by lia.
    rewrite (Nat.div_small (0 + 25 - 1) 25) by lia.
    assert (H : ((S n + 25 - 1) / 25 = 1)%nat).
    { replace (S n + 25 - 1)%nat with (n + 1 * 25)%nat by lia.
      rewrite Nat.div_add by lia. rewrite Nat.div_small by lia. reflexivity. }
    rewrite H. reflexivity.
Qed.

(** With a transport that always answers, the loop leaves the request
    counter where it found it and posts one chunk per 25 entries. *)
Lemma batch_loop_never_failing h env (n : nat) :
  never_failing h ->
  forall requests, (length requests <= n)%nat ->
  forall op br st v st' arr,
    batch_loop h env op requests br st = (Normal v, st', arr) ->
    _requests st' = _requests st
    /\ length (sent st') = (length (sent st) + chunks (length requests) 25)%nat.
Proof.
  intros Hnf. induction n as [|n IH]; intros requests Hlen op br st v st' arr Hrun.
  - destruct requests as [|r rs]; [|simpl in Hlen; lia].
    simp batch_loop in Hrun. inversion Hrun; subst. split; [reflexivity|].
    simpl. unfold chunks. simpl. lia.
  - destruct requests as [|r rs].
    + simp batch_loop in Hrun. inversion Hrun; subst. split; [reflexivity|].
      simpl. unfold chunks. simpl. lia.
    + rewrite batch_loop_cons in Hrun.
      destruct (post_never_failing h env (JStr "composite/batch/")
                  (JObj [("batchRequests", JArr (take 25 (r :: rs)))]) op st Hnf)
        as [resp Hpost].
      rewrite Hpost in Hrun.
      destruct (keep_response br resp) as [kept|e]; [|discriminate Hrun].
      apply IH in Hrun.
      * destruct Hrun as [Hreq Hsent]. rewrite Hreq, Hsent.
        rewrite length_drop. simpl length. rewrite length_app. simpl length.
        pose proof (chunks_step (length rs)).
        split; [cbn [_requests decr_requests record_call incr_requests]; lia | lia].
      * rewrite length_drop. simpl in Hlen |- *. lia.
Qed.

(** C6: with a transport that never fails, a [batch] call that completes
    raises the request counter by exactly one, however many chunks it
    posted: the loop posts one chunk per 25 sub-requests, each counted by
    [_request] and uncounted again, and one increment follows the loop. *)
Theorem C6_batch_counts_one_request
    (h : Host) (env : Env) (requests : list JsVal) (op : option Obj)
    (st st' : State) (v : JsVal) (arr : list JsVal) :
  never_failing h ->
  batch h env requests op st = (Normal v, st', arr) ->
  _requests st' = _requests st + 1
  /\ length (sent st') = (length (sent st) + chunks (length requests) 25)%nat.
Proof.
  intros Hnf Hrun. unfold batch in Hrun.
  destruct (get (default JUndef (head requests)) "method") as [m|e];
    [|discriminate Hrun].
  set (requests' := if negb (truthy m) then map (as_get env) requests else requests)
    in Hrun.
  assert (Hlen : length requests' = length requests).
  { subst requests'. destruct (negb (truthy m)); [apply length_map | reflexivity]. }
  destruct (batch_loop h env op requests' (JBool false) st) as [[r st1] arr1] eqn:Hloop.
  destruct r as [br|e]; [|discriminate Hrun].
  inversion Hrun; subst v st' arr.
  destruct (batch_loop_never_failing h env (length requests') Hnf requests'
              (Nat.le_refl _) op (JBool false) st br st1 arr1 Hloop) as [Hreq Hsent].
  simpl. rewrite Hreq, Hsent, Hlen. split; reflexivity.
Qed.

(** Twenty-six sub-requests, two chunks, one request counted. *)
Lemma C6_two_chunks_witness :
  exists v st' arr,
    batch (page batch_transport) demo_env (paths 26) None fresh = (Normal v, st', arr)
    /\ _requests st' = _requests fresh + 1
    /\ length (sent st') = (length (sent fresh) + chunks (length (paths 26)) 25)%nat
    /\ chunks (length (paths 26)) 25 = 2%nat.
Proof.
  destruct (batch (page batch_transport) demo_env (paths 26) None fresh)
    as [[r st'] arr] eqn:Hrun.
  assert (Hr : exists v, r = Normal v).
  { apply (f_equal (fun x => fst (fst x))) in Hrun. simpl in Hrun. subst r.
    vm_compute. eexists. reflexivity. }
  destruct Hr as [v ->].
  exists v, st', arr. split; [reflexivity|].
  destruct (C6_batch_counts_one_request (page batch_transport) demo_env (paths 26)
              None fresh st' v arr) as [Hreq Hsent].
  - intros n r. discriminate.
  - exact Hrun.
  - repeat split; [exact Hreq | exact Hsent].
Defined.

(** C4 at twenty-six sub-requests and a service that returns one result
    per sub-request: two chunks are posted (25 and 1 entries), and the
    aggregate that [batch] returns is the answer to the first chunk alone,
    with 25 results; the result of the second chunk is missing. *)
Theorem C4_batch_returns_first_chunk_only :
  let '(r, st', _) :=
    batch (page batch_transport) demo_env (paths 26) None fresh in
  length (sent st') = chunks 26 25
  /\ map (fun q => (method_of q, req_url q)) (sent st')
     = [(JStr "post", "https://test.salesforce.com/services/data/v43.0/composite/batch/");
        (JStr "post", "https://test.salesforce.com/services/data/v43.0/composite/batch/")]
  /\ map (fun q => length (sub_requests_of q)) (sent st') = [25; 1]%nat
  /\ r = Normal (JObj [("hasErrors", JBool false);
                       ("results", JArr (map sub_result
                                           (map (as_get demo_env) (paths 25))))])
  /\ length (map sub_result (map (as_get demo_env) (paths 25))) = 25%nat.
Proof. vm_compute. repeat split. Qed.

(** The first request a call to [_request] hands to the transport is the
    one built from its arguments; later attempts only append. *)
Lemma request_sent h env method action payload (j : nat) :
  forall op retry st r st',
    (3 - retry <= j)%nat ->
    _request h env method action payload op retry st = (r, st') ->
    exists more,
      sent st' = (sent st ++ build_request env method action payload op :: more)%list.
Proof.
  induction j as [|j IH]; intros op retry st r st' Hj Hrun;
    rewrite _request_unfold in Hrun; cbn zeta in Hrun;
    destruct (fetch h _ _).
  - inversion Hrun; subst. exists []. reflexivity.
  - destruct (lt_dec retry 3); [lia|].
    inversion Hrun; subst. exists []. reflexivity.
  - inversion Hrun; subst. exists []. reflexivity.
  - destruct (lt_dec retry 3).
    + apply IH in Hrun; [|lia]. destruct Hrun as [more Hmore].
      eexists. rewrite Hmore. simpl. rewrite <- app_assoc. reflexivity.
    + inversion Hrun; subst. exists []. reflexivity.
Qed.

(** What [batch_loop] leaves of the array is a suffix of it, empty when
    the loop ends normally; the first request sent carries the first 25
    entries. *)
Lemma batch_loop_trace h env (n : nat) :
  forall requests, (length requests <= n)%nat ->
  forall op br st r st' arr,
    batch_loop h env op requests br st = (r, st', arr) ->
    (exists k, arr = drop k requests)
    /\ (forall v, r = Normal v -> arr = [])
    /\ match requests with
       | [] => sent st' = sent st
       | _ :: _ =>
           exists more,
             sent st' = (sent st ++
               build_request env "post" (JStr "composite/batch/")
                 (JObj [("batchRequests", JArr (take 25 requests))]) op :: more)%list
       end.
Proof.
  induction n as [|n IH]; intros requests Hlen op br st r st' arr Hrun;
    destruct requests as [|x xs]; try (simpl in Hlen; lia).
  1, 2: simp batch_loop in Hrun; inversion Hrun; subst;
        split; [exists 0%nat; reflexivity | split; [reflexivity | reflexivity]].
  rewrite batch_loop_cons in Hrun.
  destruct (_post h env _ _ op st) as [[resp|e] st1] eqn:Hpost.
  - unfold _post in Hpost.
    apply (request_sent _ _ _ _ _ 3) in Hpost; [|lia].
    destruct Hpost as [more Hmore].
    destruct (keep_response br resp) as [kept|e].
    + apply IH in Hrun; [|rewrite length_drop; simpl in Hlen |- *; lia].
      destruct Hrun as ([k Hk] & Hnormal & Hsent).
      split; [exists (25 + k)%nat; rewrite Hk; apply drop_drop|].
      split; [exact Hnormal|].
      destruct (drop 25 (x :: xs)).
      * exists more. rewrite Hsent. exact Hmore.
      * destruct Hsent as [more' Hmore']. eexists.
        rewrite Hmore'. simpl sent. rewrite Hmore, <- app_assoc. reflexivity.
    + inversion Hrun; subst.
      split; [exists 25%nat; reflexivity|].
      split; [intros v Hv; discriminate Hv|].
      exists more. exact Hmore.
  - unfold _post in Hpost.
    apply (request_sent _ _ _ _ _ 3) in Hpost; [|lia].
    destruct Hpost as [more Hmore].
    inversion Hrun; subst.
    split; [exists 25%nat; reflexivity|].
    split; [intros v Hv; discriminate Hv|].
    exists more. exact Hmore.
Qed.

Lemma insert_loop_leaves env url (n : nat) :
  forall oRecords, (length oRecords <= n)%nat ->
  forall st, snd (insert_loop env url oRecords st) = [].
Proof.
  induction n as [|n IH]; intros oRecords Hlen st;
    destruct oRecords as [|x xs]; try (simpl in Hlen; lia).
  1, 2: simp insert_loop; reflexivity.
  simp insert_loop. cbn zeta. apply IH.
  rewrite length_drop. simpl in Hlen |- *. lia.
Qed.

Lemma update_loop_leaves h env (n : nat) :
  forall oRecords, (length oRecords <= n)%nat ->
  forall st st' arr,
    update_loop h env oRecords st = (Normal tt, st', arr) -> arr = [].
Proof.
  induction n as [|n IH]; intros oRecords Hlen st st' arr Hrun;
    destruct oRecords as [|x xs]; try (simpl in Hlen; lia).
  1, 2: simp update_loop in Hrun; inversion Hrun; reflexivity.
  rewrite update_loop_cons in Hrun.
  destruct (_post h env _ _ None st) as [[resp|e] st1]; [|discriminate Hrun].
  apply IH in Hrun; [exact Hrun|].
  rewrite length_drop. simpl in Hlen |- *. lia.
Qed.

(** C10, as the code has it.  After a call of [batch], [insert] or
    [update] on an array of the caller's returns normally, that array is
    empty (a failed call may leave entries behind).  When the first entry
    of the array given to [batch] is a bare path, every entry is rewritten
    in place into a GET sub-request before anything is sent: the first
    request posted carries the first 25 rewritten entries, and what is
    left of the array is a suffix of the rewritten array. *)
Theorem C10_arrays_consumed_in_place
    (h : Host) (env : Env) (c : Call) (st st' : State)
    (r : Completion JsVal) (arr : list JsVal) :
  run h env c st = (r, st', arr) ->
  (forall v, r = Normal v -> arr = [])
  /\ (forall requests op path,
        c = Batch requests op ->
        head requests = Some (JStr path) ->
        (exists k, arr = drop k (map (as_get env) requests))
        /\ (exists more,
              sent st' = (sent st ++
                build_request env "post" (JStr "composite/batch/")
                  (JObj [("batchRequests",
                          JArr (take 25 (map (as_get env) requests)))]) op :: more)%list)).
Proof.
  intros Hrun. split.
  - intros v ->. destruct c as [requests op | oRecords | oRecords]; simpl in Hrun.
    + unfold batch in Hrun.
      destruct (get (default JUndef (head requests)) "method") as [m|e];
        [|discriminate Hrun].
      destruct (batch_loop h env op _ (JBool false) st) as [[r1 st1] arr1] eqn:Hloop.
      destruct r1 as [br|e]; [|discriminate Hrun].
      inversion Hrun; subst.
      eapply batch_loop_trace in Hloop; [|apply Nat.le_refl].
      destruct Hloop as (_ & Hnormal & _). eapply Hnormal. reflexivity.
    + unfold insert in Hrun. change (promote (JArr oRecords)) with (JArr oRecords) in Hrun.
      destruct (check_records _ (JArr oRecords)) as [type|e];
        [|inversion Hrun].
      pose proof (insert_loop_leaves env
                    ("composite/tree/" +:+ ToString type +:+ "/")
                    (length oRecords) oRecords (Nat.le_refl _)
                    (with_self (set_insertReults (JArr [])) st)) as Hleft.
      simpl items_of in Hrun.
      destruct (insert_loop env _ oRecords _) as [st1 remaining].
      simpl in Hleft. subst remaining. inversion Hrun; reflexivity.
    + unfold update in Hrun. change (promote (JArr oRecords)) with (JArr oRecords) in Hrun.
      destruct (check_records _ (JArr oRecords)) as [type|e];
        [|inversion Hrun].
      simpl items_of in Hrun.
      destruct (update_loop h env oRecords _) as [[r1 st1] remaining] eqn:Hloop.
      destruct r1 as [[]|e]; [|inversion Hrun].
      apply (update_loop_leaves h env (length oRecords)) in Hloop; [|apply Nat.le_refl].
      subst remaining. inversion Hrun; reflexivity.
  - intros requests op path -> Hhead. simpl in Hrun. unfold batch in Hrun.
    rewrite Hhead in Hrun. simpl in Hrun.
    destruct requests as [|x xs]; [discriminate Hhead|].
    destruct (batch_loop h env op _ (JBool false) st) as [[r1 st1] arr1] eqn:Hloop.
    eapply batch_loop_trace in Hloop; [|apply Nat.le_refl].
    destruct Hloop as (Hk & _ & Hsent).
    destruct r1; inversion Hrun; subst; split; assumption.
Qed.

(** Twenty-six bare paths against a service that answers: the call
    returns and the caller's array is empty. *)
Lemma C10_batch_witness :
  snd (run (page batch_transport) demo_env (Batch (paths 26) None) fresh) = [].
Proof.
  pose (out := run (page batch_transport) demo_env (Batch (paths 26) None) fresh).
  destruct (C10_arrays_consumed_in_place (page batch_transport) demo_env
              (Batch (paths 26) None) fresh
              (snd (fst out)) (fst (fst out)) (snd out)) as [Hempty _].
  - subst out. vm_compute. reflexivity.
  - eapply Hempty. subst out. vm_compute. reflexivity.
Defined.

(** C10 as stated fails for calls that fail.  With a transport that
    never answers, [batch] on 26 bare paths fails after splicing off the
    first chunk and leaves the 26th entry, rewritten, in the caller's
    array; [update] on an array whose first record has no type fails
    before any splice and leaves the array as it was. *)
Lemma C10_counterexample :
  (let '(r, _, arr) :=
     run (page dead_transport) demo_env (Batch (paths 26) None) fresh in
   r = Throw batch_failed
   /\ arr = [as_get demo_env (JStr "sobjects/Contact/25")]
   /\ arr <> [])
  /\ (let '(r, _, arr) :=
        run (page dead_transport) demo_env (Update [JObj [("Name", JStr "A")]]) fresh in
      r = Throw (ErrorObj "No valid records to update!")
      /\ arr = [JObj [("Name", JStr "A")]]
      /\ arr <> []).
Proof. vm_compute. repeat split; intros H; discriminate H. Qed.

(** *** C7: the guard of [insert] and [update] *)

Lemma invalid_records_check (message : string) (v : JsVal) :
  invalid_records v ->
  check_records message (promote v) = Throw (ErrorObj message).
Proof.
  intros [v' Hmissing | v' Hnot | first rest Hfirst Htype].
  - destruct v'; try discriminate Hmissing; reflexivity.
  - unfold check_records. rewrite Hnot.
    destruct (truthy (promote v')); reflexivity.
  - change (promote (JArr (first :: rest))) with (JArr (first :: rest)).
    unfold check_records. simpl.
    destruct first as [| |b|z|s|items|fields];
      try discriminate Hfirst; try reflexivity.
    simpl in Htype |- *.
    destruct (lookup_field "attributes" fields) as [[| |b|z|s|items|attributes]|];
      simpl in Htype |- *; try reflexivity.
    + destruct b; reflexivity.
    + destruct (z =? 0); reflexivity.
    + destruct (String.eqb s ""); reflexivity.
    + rewrite Htype. reflexivity.
Qed.

(** The guard at work: an input that is missing, that is not an array
    even after a single record has been wrapped, or whose first element is
    a value without a type discriminator makes [insert] and [update] throw
    their [Error("No valid records ...")] with the state untouched: nothing
    was handed to the transport. *)
Lemma invalid_records_rejected_before_any_call
    (h : Host) (env : Env) (v : JsVal) (st : State) :
  invalid_records v ->
  insert h env v st = (Throw (ErrorObj "No valid records to insert!"), st, v)
  /\ update h env v st = (Throw (ErrorObj "No valid records to update!"), st, v).
Proof.
  intros Hbad. split.
  - unfold insert. rewrite (invalid_records_check _ v Hbad). reflexivity.
  - unfold update. rewrite (invalid_records_check _ v Hbad). reflexivity.
Qed.

(** [insert(null)] and [update(null)]. *)
Lemma null_records_rejected :
  insert (page batch_transport) demo_env JNull fresh
    = (Throw (ErrorObj "No valid records to insert!"), fresh, JNull)
  /\ update (page batch_transport) demo_env JNull fresh
    = (Throw (ErrorObj "No valid records to update!"), fresh, JNull).
Proof.
  apply (invalid_records_rejected_before_any_call
           (page batch_transport) demo_env JNull fresh).
  apply records_missing. reflexivity.
Defined.

(** C7 at an empty array (and at an array that starts with [null]): the
    guard reads [oRecords[0].attributes] without looking at [oRecords[0]],
    so the call fails with TypeError, not with the
    [Error("No valid records ...")] of the guard.  The state is untouched:
    here too nothing was handed to the transport. *)
Theorem C7_empty_array_raises_TypeError :
  insert (page batch_transport) demo_env (JArr []) fresh
    = (Throw TypeError, fresh, JArr [])
  /\ update (page batch_transport) demo_env (JArr []) fresh
    = (Throw TypeError, fresh, JArr [])
  /\ insert (page batch_transport) demo_env (JArr [JNull; contact "A"]) fresh
    = (Throw TypeError, fresh, JArr [JNull; contact "A"])
  /\ Throw (A := JsVal) TypeError <> Throw (ErrorObj "No valid records to insert!").
Proof. repeat split. intros H. discriminate H. Qed.

(** *** C8 and C9: construction and the URL builder *)

Lemma split_without_separator (c : ascii) (s : string) :
  has_char c s = false -> split c s = [s].
Proof.
  induction s as [|c' s IH]; intros Hno; [reflexivity|].
  simpl in Hno |- *. apply orb_false_elim in Hno as [Hc Hs].
  rewrite Hc, (IH Hs). reflexivity.
Qed.

(** C8, as the code has it: for a URL without [#], construction raises
    TypeError ([split('#')[1]] is undefined and has no [split]); no
    session and no credential set come out of it. *)
Theorem C8_no_fragment_raises_TypeError (h : Host) (url : string) (o : Options) :
  has_char "#" url = false ->
  salesforceSession h url o = Throw TypeError.
Proof.
  intros Hno. unfold salesforceSession.
  rewrite (split_without_separator _ _ Hno). reflexivity.
Qed.

Lemma C8_landing_page_witness :
  salesforceSession (page dead_transport) "https://app.example/landing"
    (mkOptions JUndef JUndef JUndef) = Throw TypeError.
Proof.
  apply (C8_no_fragment_raises_TypeError (page dead_transport)
           "https://app.example/landing" (mkOptions JUndef JUndef JUndef)).
  reflexivity.
Defined.

(** C8 as stated fails: for a URL without a fragment, construction does
    raise an error, and returns no session. *)
Lemma C8_counterexample :
  salesforceSession (page dead_transport) "https://login.example/callback?state=1"
    (mkOptions JUndef JUndef JUndef) = Throw TypeError
  /\ ~ exists session,
        salesforceSession (page dead_transport) "https://login.example/callback?state=1"
          (mkOptions JUndef JUndef JUndef) = Normal session.
Proof.
  split; [reflexivity|]. intros [session H]. vm_compute in H. discriminate H.
Qed.

(** In a page that does not define [_OAuthVarPairs], the strict-mode
    assignment of line 29 raises: no session is constructed. *)
Lemma undeclared_global_prevents_construction h url o :
  declares_OAuthVarPairs h = false ->
  forall session, salesforceSession h url o <> Normal session.
Proof.
  intros Hno session. unfold salesforceSession. rewrite Hno. simpl.
  destruct (split "#" url !! 1%nat); discriminate.
Qed.

(** Whatever the options, a constructed session builds its URLs from
    the fixed path ['/services/data/']. *)
Lemma constructed_session_url h url o env st (action : string) :
  salesforceSession h url o = Normal (env, st) ->
  _servicesPath env = "/services/data/"
  /\ version env = or_default (JStr "43.0") (opt_version o)
  /\ _url env (JStr action)
     = ToString (var env "instance_url") +:+ "/services/data/" +:+ "v"
       +:+ ToString (or_default (JStr "43.0") (opt_version o)) +:+ "/" +:+ action.
Proof.
  unfold salesforceSession. intros H.
  destruct (split "#" url !! 1%nat); [|discriminate H].
  destruct (negb (declares_OAuthVarPairs h)); [discriminate H|].
  destruct (parse_pairs h _ _); [|discriminate H].
  inversion H; subst. repeat split.
Qed.

(** C9 at a session constructed with [_servicesPath: '/custom/rest/']:
    the option is overwritten by the [var] of the same name, and the URL
    is built with ['/services/data/']. *)
Theorem C9_servicesPath_option_is_overwritten :
  match salesforceSession (page dead_transport) redirect_url
          (mkOptions JUndef (JStr "/custom/rest/") JUndef) with
  | Normal (env, _) =>
      env = demo_env
      /\ _servicesPath env = "/services/data/"
      /\ _url env (JStr "query?q=x")
         = "https://test.salesforce.com/services/data/v43.0/query?q=x"
      /\ _url env (JStr "query?q=x")
         <> "https://test.salesforce.com/custom/rest/v43.0/query?q=x"
  | Throw _ => False
  end.
Proof. vm_compute. repeat split. intros H. discriminate H. Qed.

(** *** C1 and C3: [query] *)

(** A GET whose URL is longer than 2048 characters (or whose action is
    an array) raises TypeError at [this.batch] and hands nothing to the
    transport. *)
Lemma get_oversized_raises h env action op st :
  (2048 < String.length (_url env action))%nat ->
  _get h env action op st = (Throw TypeError, st).
Proof.
  intros Hbig. unfold _get.
  assert (Hcall : call_outer_this_batch h = Throw TypeError).
  { unfold call_outer_this_batch. destruct (outer_this h); reflexivity. }
  rewrite Hcall. destruct (Array_isArray action); [reflexivity|].
  apply Nat.ltb_lt in Hbig. rewrite Hbig. reflexivity.
Qed.

(** C1 at the scenario of the claim.  The first page carries
    [nextRecordsUrl: "/next"]; entering the loop raises ReferenceError, the
    cursor is never fetched (one request was sent), [records] is set to
    [false] and the call fails with ["Query failed!"] instead of resolving
    to the two records. *)
Theorem C1_query_with_a_cursor_fails :
  let '(r, st') :=
    query (page paged_transport) demo_env (JStr "SELECT Id FROM Contact") None fresh in
  r = Throw (Thrown "Query failed!")
  /\ r <> Normal (JArr [JObj [("Id", JStr "1")]; JObj [("Id", JStr "2")]])
  /\ records (self st') = JBool false
  /\ map req_url (sent st')
     = ["https://test.salesforce.com/services/data/v43.0/query?q=SELECT%20Id%20FROM%20Contact"].
Proof. vm_compute. repeat split. intros H. discriminate H. Qed.

(** The same holds for every first page with a cursor: [query] never
    resolves to more than one page. *)
Lemma query_rejects_every_cursor h env mySoql parameters st results st1 page next :
  let st0 := with_self (set_soql (or_default (soql (self st)) mySoql)) st in
  _get h env (JStr ("query?q=" +:+ encodeURIComponent (ToString (soql (self st0)))))
    (Some (_parameters env parameters)) st0 = (Normal results, st1) ->
  get results "records" = Normal page ->
  get results "nextRecordsUrl" = Normal next ->
  loosely_defined next = true ->
  query h env mySoql parameters st
  = (Throw (Thrown "Query failed!"), with_self (set_records (JBool false)) st1).
Proof.
  intros st0 Hget Hpage Hnext Hdef. unfold query. fold st0.
  rewrite Hget, Hpage. unfold follow_cursors. rewrite Hnext, Hdef.
  destruct st1; reflexivity.
Qed.

(** A search of a single page stores the page in [searchRecords] and
    resolves to [this.searchResults], which is undefined. *)
Lemma search_resolves_to_undefined :
  let '(r, st') :=
    search (page (fun _ _ => Some (JObj [("searchRecords", JArr [JObj [("Id", JStr "1")]])])))
      demo_env (JStr "FIND {Arthur Dent}") None fresh in
  r = Normal JUndef
  /\ searchRecords (self st') = JArr [JObj [("Id", JStr "1")]].
Proof. vm_compute. split; reflexivity. Qed.

(** C3 at a query whose URL has more than 2048 characters: nothing is
    handed to the transport, neither the GET nor a POST to the
    composite-batch endpoint, and the query fails. *)
Theorem C3_oversized_get_posts_nothing :
  let action := "query?q=" +:+ encodeURIComponent long_soql in
  let '(r, st') :=
    query (page batch_transport) demo_env (JStr long_soql) None fresh in
  (2048 <? String.length (_url demo_env (JStr action)))%nat = true
  /\ _get (page batch_transport) demo_env (JStr action) None fresh
     = (Throw TypeError, fresh)
  /\ r = Throw (Thrown "Query failed!")
  /\ sent st' = [].
Proof. vm_compute. repeat split. Qed.

(** ** Further properties of the session *)

(** *** Parameter objects *)

Lemma lookup_set_field (k k' : string) (v : JsVal) (o : Obj) :
  lookup_field k (set_field k' v o)
  = if String.eqb k k' then Some v else lookup_field k o.
Proof.
  induction o as [|[k1 v1] o IH]; simpl.
  - destruct (String.eqb k k'); reflexivity.
  - destruct (String.eqb_spec k' k1) as [->|Hne]; simpl.
    + destruct (String.eqb k k1); reflexivity.
    + rewrite IH. destruct (String.eqb_spec k k1) as [->|Hne1];
        [|reflexivity].
      destruct (String.eqb_spec k1 k') as [->|_]; [congruence|reflexivity].
Qed.

Lemma set_field_same (k : string) (v : JsVal) (o : Obj) :
  lookup_field k o = Some v -> set_field k v o = o.
Proof.
  induction o as [|[k1 v1] o IH]; simpl; [discriminate|].
  destruct (String.eqb_spec k k1) as [->|_]; intros H.
  - congruence.
  - rewrite (IH H). reflexivity.
Qed.

Lemma set_field_twice (k : string) (v v' : JsVal) (o : Obj) :
  set_field k v (set_field k v' o) = set_field k v o.
Proof.
  induction o as [|[k1 v1] o IH]; simpl.
  - rewrite String.eqb_refl. reflexivity.
  - destruct (String.eqb k k1) eqn:Hk; simpl.
    + rewrite String.eqb_refl. reflexivity.
    + rewrite Hk, IH. reflexivity.
Qed.

(** [_parameters] gives the object fresh headers made of the
    Authorization credential alone, whatever headers the caller had put
    there, and leaves every other key as it was. *)
Theorem parameters_replace_headers (env : Env) (o : Obj) (k : string) :
  lookup_field k (_parameters env (Some o))
  = if String.eqb k "headers" then Some (JObj (httpheaders env))
    else lookup_field k o.
Proof. apply lookup_set_field. Qed.

(** What fetch is given (lines 50-56), key by key: the method of the
    call; the Authorization header, with the JSON content type exactly when
    there is a payload; the payload as body when there is one, and
    otherwise whatever body the caller's object had; every other key of the
    caller's object unchanged. *)
Theorem request_init_fields (env : Env) (method : string) (payload : JsVal)
    (op : option Obj) (k : string) :
  lookup_field k (request_init env method payload op)
  = if String.eqb k "method" then Some (JStr method)
    else if String.eqb k "headers" then
      Some (JObj (if truthy payload then json_headers env else httpheaders env))
    else if String.eqb k "body" && truthy payload then Some payload
    else op ≫= lookup_field k.
Proof.
  unfold request_init.
  assert (Hp : forall k0,
      lookup_field k0 (_parameters env op)
      = if String.eqb k0 "headers" then Some (JObj (httpheaders env))
        else op ≫= lookup_field k0).
  { intros k0. destruct op as [o|]; simpl.
    - apply lookup_set_field.
    - destruct (String.eqb k0 "headers"); reflexivity. }
  destruct (truthy payload); repeat rewrite lookup_set_field; rewrite Hp.
  - destruct (String.eqb k "body") eqn:Hb;
      destruct (String.eqb k "headers") eqn:Hh;
      destruct (String.eqb k "method") eqn:Hm;
      try reflexivity;
      repeat match goal with
             | H : String.eqb _ _ = true |- _ => apply String.eqb_eq in H
             end; subst; discriminate.
  - rewrite andb_false_r.
    destruct (String.eqb k "method"); reflexivity.
Qed.

(** Building the parameter object again from the object a previous
    attempt left gives the same object. *)
Lemma request_init_again (env : Env) (method : string) (payload : JsVal)
    (op : option Obj) :
  request_init env method payload (Some (request_init env method payload op))
  = request_init env method payload op.
Proof.
  pose proof (request_init_fields env method payload op) as Hfields.
  set (r := request_init env method payload op) in *.
  unfold request_init at 1. cbn [_parameters].
  assert (Hm : set_field "method" (JStr method)
                 (set_field "headers" (JObj (httpheaders env)) r)
               = set_field "headers" (JObj (httpheaders env)) r).
  { apply set_field_same. rewrite lookup_set_field. simpl. apply (Hfields "method"). }
  rewrite Hm.
  destruct (truthy payload) eqn:Hp.
  - rewrite set_field_twice.
    rewrite (set_field_same "headers" _ r).
    + apply set_field_same. rewrite (Hfields "body"). reflexivity.
    + rewrite (Hfields "headers"). reflexivity.
  - apply set_field_same. rewrite (Hfields "headers"). reflexivity.
Qed.

Lemma build_request_again env method action payload op :
  build_request env method action payload
    (Some (request_init env method payload op))
  = build_request env method action payload op.
Proof. unfold build_request. rewrite request_init_again. reflexivity. Qed.

(** *** [_request] against an arbitrary transport *)

(** One call of [_request], started with [retry <= 3]: it makes [n]
    attempts with the same request, all but the last of which fail, and
    ends with the answer to the last one or, when the last permitted
    attempt fails as well, with the request-failed error. *)
Lemma request_attempts h env method action payload (j : nat) :
  forall op retry st r st',
    (retry + j = 3)%nat ->
    _request h env method action payload op retry st = (r, st') ->
    exists n,
      (1 <= n)%nat /\ (n + retry <= 4)%nat
      /\ sent st' = (sent st ++ repeat (build_request env method action payload op) n)%list
      /\ _requests st' = _requests st + Z.of_nat n
      /\ self st' = self st
      /\ (forall i, (i < n - 1)%nat ->
            fetch h (length (sent st) + i)
              (build_request env method action payload op) = None)
      /\ ((exists v,
              r = Normal v
              /\ fetch h (length (sent st) + (n - 1))
                   (build_request env method action payload op) = Some v
              /\ _requestErrors st' = _requestErrors st + Z.of_nat n - 1)
          \/ (r = Throw (request_failed method)
              /\ (n + retry = 4)%nat
              /\ fetch h (length (sent st) + (n - 1))
                   (build_request env method action payload op) = None
              /\ _requestErrors st' = _requestErrors st + Z.of_nat n)).
Proof.
  induction j as [|j IH]; intros op retry st r st' Hj Hrun;
    rewrite _request_unfold in Hrun; cbn zeta in Hrun;
    destruct (fetch h _ _) as [v|] eqn:Hf.
  1, 3: inversion Hrun; subst; exists 1%nat;
        split; [lia|]; split; [lia|]; split; [reflexivity|];
        split; [simpl; lia|]; split; [reflexivity|];
        split; [intros i Hi; lia|];
        left; exists v; simpl; rewrite Nat.add_0_r;
        split; [reflexivity|]; split; [exact Hf | lia].
  - destruct (lt_dec retry 3) as [Hlt|_]; [lia|].
    inversion Hrun; subst. exists 1%nat.
    split; [lia|]. split; [lia|]. split; [reflexivity|].
    split; [simpl; lia|]. split; [reflexivity|].
    split; [intros i Hi; lia|].
    right. simpl. rewrite Nat.add_0_r.
    split; [reflexivity|]. split; [lia|]. split; [exact Hf | lia].
  - destruct (lt_dec retry 3) as [_|Hge]; [|lia].
    apply IH in Hrun; [|lia].
    rewrite build_request_again in Hrun.
    set (req := build_request env method action payload op) in *.
    destruct Hrun as (n & Hn1 & Hn4 & Hsent & Hreq & Hself & Hnone & Hlast).
    simpl sent in *. rewrite length_app in *. simpl length in *.
    exists (S n).
    split; [lia|]. split; [lia|]. split; [|split; [|split; [|split]]].
    + rewrite Hsent, <- app_assoc. reflexivity.
    + rewrite Hreq. simpl. lia.
    + rewrite Hself. reflexivity.
    + intros [|i] Hi.
      * rewrite Nat.add_0_r. exact Hf.
      * replace (length (sent st) + S i)%nat with (length (sent st) + 1 + i)%nat by lia.
        apply Hnone. lia.
    + replace (length (sent st) + (S n - 1))%nat
        with (length (sent st) + 1 + (n - 1))%nat by lia.
      destruct Hlast as [(v & -> & Hv & Herr) | (-> & Hn & Hv & Herr)].
      * left. exists v. repeat split; [exact Hv|]. rewrite Herr. simpl. lia.
      * right. repeat split; [lia | exact Hv |]. rewrite Herr. simpl. lia.
Qed.

(** Every attempt of a call hands the transport the same request: the
    object rebuilt for a retry equals the one of the first attempt.  A
    call makes between one and four attempts. *)
Theorem retries_resend_the_same_request
    (h : Host) (env : Env) (method : string) (action payload : JsVal)
    (op : option Obj) (st st' : State) (r : Completion JsVal) :
  _request h env method action payload op 0 st = (r, st') ->
  exists n,
    (1 <= n <= 4)%nat
    /\ sent st' = (sent st ++ repeat (build_request env method action payload op) n)%list.
Proof.
  intros Hrun. apply (request_attempts _ _ _ _ _ 3) in Hrun; [|reflexivity].
  destruct Hrun as (n & Hn1 & Hn4 & Hsent & _).
  exists n. split; [lia | exact Hsent].
Qed.

Lemma retries_resend_witness :
  exists n,
    (1 <= n <= 4)%nat
    /\ sent (snd (_request (page flaky_transport) demo_env "post"
                    (JStr "composite/batch/") (JObj [("batchRequests", JArr [])])
                    (Some [("mode", JStr "cors")]) 0 fresh))
       = (sent fresh ++
          repeat (build_request demo_env "post" (JStr "composite/batch/")
                    (JObj [("batchRequests", JArr [])])
                    (Some [("mode", JStr "cors")])) n)%list.
Proof.
  apply (retries_resend_the_same_request (page flaky_transport) demo_env "post"
           (JStr "composite/batch/") (JObj [("batchRequests", JArr [])])
           (Some [("mode", JStr "cors")]) fresh _
           (fst (_request (page flaky_transport) demo_env "post"
                   (JStr "composite/batch/") (JObj [("batchRequests", JArr [])])
                   (Some [("mode", JStr "cors")]) 0 fresh))).
  vm_compute. reflexivity.
Defined.

(** The accounting of one call, whatever the transport does.  With [n]
    the number of attempts made: the request counter grows by [n], the
    properties of the session object are untouched, and either the call
    returns the answer to attempt [n], the first that did not fail, with
    [n - 1] errors counted, or all of four attempts failed, four errors are
    counted and the call throws the request-failed error.  No other error
    leaves [_request]. *)
Theorem request_accounting
    (h : Host) (env : Env) (method : string) (action payload : JsVal)
    (op : option Obj) (st st' : State) (r : Completion JsVal) :
  _request h env method action payload op 0 st = (r, st') ->
  self st' = self st
  /\ exists n,
      (1 <= n <= 4)%nat
      /\ length (sent st') = (length (sent st) + n)%nat
      /\ _requests st' = _requests st + Z.of_nat n
      /\ (forall i, (i < n - 1)%nat ->
            fetch h (length (sent st) + i)
              (build_request env method action payload op) = None)
      /\ ((exists v,
              r = Normal v
              /\ fetch h (length (sent st) + (n - 1))
                   (build_request env method action payload op) = Some v
              /\ _requestErrors st' = _requestErrors st + Z.of_nat n - 1)
          \/ (r = Throw (Thrown ("Salesforce " +:+ toUpperCase method +:+ " request failed!"))
              /\ n = 4%nat
              /\ fetch h (length (sent st) + 3)
                   (build_request env method action payload op) = None
              /\ _requestErrors st' = _requestErrors st + 4)).
Proof.
  intros Hrun. apply (request_attempts _ _ _ _ _ 3) in Hrun; [|reflexivity].
  destruct Hrun as (n & Hn1 & Hn4 & Hsent & Hreq & Hself & Hnone & Hlast).
  split; [exact Hself|]. exists n. repeat split; try lia.
  - rewrite Hsent, length_app, repeat_length. reflexivity.
  - exact Hnone.
  - destruct Hlast as [Hok | (-> & Hn & Hv & Herr)]; [left; exact Hok|].
    right. assert (n = 4%nat) as -> by lia.
    repeat split; [exact Hv | rewrite Herr; reflexivity].
Qed.

Lemma request_accounting_witness :
  let out := _request (page flaky_transport) demo_env "get" (JStr "limits")
               JNull None 0 fresh in
  self (snd out) = self fresh
  /\ exists n,
      (1 <= n <= 4)%nat
      /\ length (sent (snd out)) = (length (sent fresh) + n)%nat
      /\ _requests (snd out) = _requests fresh + Z.of_nat n
      /\ (forall i, (i < n - 1)%nat ->
            fetch (page flaky_transport) (length (sent fresh) + i)
              (build_request demo_env "get" (JStr "limits") JNull None) = None)
      /\ ((exists v,
              fst out = Normal v
              /\ fetch (page flaky_transport) (length (sent fresh) + (n - 1))
                   (build_request demo_env "get" (JStr "limits") JNull None) = Some v
              /\ _requestErrors (snd out) = _requestErrors fresh + Z.of_nat n - 1)
          \/ (fst out = Throw (Thrown ("Salesforce " +:+ toUpperCase "get" +:+ " request failed!"))
              /\ n = 4%nat
              /\ fetch (page flaky_transport) (length (sent fresh) + 3)
                   (build_request demo_env "get" (JStr "limits") JNull None) = None
              /\ _requestErrors (snd out) = _requestErrors fresh + 4)).
Proof.
  intros out.
  apply (request_accounting (page flaky_transport) demo_env "get" (JStr "limits")
           JNull None fresh (snd out) (fst out)).
  subst out. vm_compute. reflexivity.
Defined.

(** The client does not look at its credentials before it calls: with
    neither [token_type] nor [access_token] in the credential set, the
    request is sent all the same, with the header
    ["Authorization: undefined undefined"]. *)
Theorem missing_credentials_are_sent_as_undefined
    (h : Host) (env : Env) (method : string) (action payload : JsVal)
    (op : option Obj) (st st' : State) (r : Completion JsVal) :
  _OAuthVars env !! "token_type" = None ->
  _OAuthVars env !! "access_token" = None ->
  _request h env method action payload op 0 st = (r, st') ->
  exists n,
    (1 <= n)%nat
    /\ sent st' = (sent st ++ repeat (build_request env method action payload op) n)%list
    /\ authorization_of (build_request env method action payload op)
       = JStr "undefined undefined".
Proof.
  intros Htype Htoken Hrun.
  apply retries_resend_the_same_request in Hrun.
  destruct Hrun as (n & Hn & Hsent).
  exists n. split; [lia|]. split; [exact Hsent|].
  unfold authorization_of, build_request. cbn [req_init].
  rewrite (request_init_fields env method payload op "headers"). simpl.
  unfold httpheaders, json_headers, httpheaders, var. rewrite Htype, Htoken.
  destruct (truthy payload); reflexivity.
Qed.

Lemma missing_credentials_witness :
  exists n,
    (1 <= n)%nat
    /\ sent (snd (_request (page paged_transport) (mkEnv ∅ "/services/data/" (JStr "43.0"))
                    "get" (JStr "limits") JNull None 0 fresh))
       = (sent fresh ++
          repeat (build_request (mkEnv ∅ "/services/data/" (JStr "43.0"))
                    "get" (JStr "limits") JNull None) n)%list
    /\ authorization_of (build_request (mkEnv ∅ "/services/data/" (JStr "43.0"))
                           "get" (JStr "limits") JNull None)
       = JStr "undefined undefined".
Proof.
  apply (missing_credentials_are_sent_as_undefined (page paged_transport)
           (mkEnv ∅ "/services/data/" (JStr "43.0")) "get" (JStr "limits") JNull None
           fresh _
           (fst (_request (page paged_transport) (mkEnv ∅ "/services/data/" (JStr "43.0"))
                   "get" (JStr "limits") JNull None 0 fresh))).
  - reflexivity.
  - reflexivity.
  - vm_compute. reflexivity.
Defined.

(** *** Construction: reading the fragment *)









(** The instance URL of the options, or its default
    ['https://test.salesforce.com'] when the caller gives none, replaces
    whatever [instance_url] the fragment carried: without the option, the
    instance the OAuth redirect names is never used. *)
Theorem instance_url_option_replaces_fragment
    (h : Host) (url : string) (o : Options) (env : Env) (st : State) :
  salesforceSession h url o = Normal (env, st) ->
  truthy (or_default (JStr "https://test.salesforce.com") (opt_instanceUrl o)) = true ->
  var env "instance_url"
  = or_default (JStr "https://test.salesforce.com") (opt_instanceUrl o).
Proof.
  intros Hrun Htruthy. unfold salesforceSession in Hrun.
  destruct (split "#" url !! 1%nat); [|discriminate Hrun].
  destruct (negb (declares_OAuthVarPairs h)); [discriminate Hrun|].
  destruct (parse_pairs h _ ∅) as [m|]; [|discriminate Hrun].
  rewrite Htruthy in Hrun. inversion Hrun; subst.
  unfold var. simpl. rewrite lookup_insert_eq. reflexivity.
Qed.

(** The fragment names na1.salesforce.com; the session uses the default. *)
Lemma instance_url_witness :
  var twice_env "instance_url"
  = or_default (JStr "https://test.salesforce.com")
      (opt_instanceUrl (mkOptions JUndef JUndef JUndef)).
Proof.
  apply (instance_url_option_replaces_fragment (page dead_transport) twice_url
           (mkOptions JUndef JUndef JUndef) twice_env fresh).
  - vm_compute. reflexivity.
  - reflexivity.
Defined.

Lemma parse_pairs_total h (items : list string) :
  Forall (decodes h) items ->
  forall vars, exists m, parse_pairs h items vars = Normal m.
Proof.
  induction 1 as [|item items [[k Hk] [v Hv]] _ IH]; intros vars; simpl.
  - exists vars. reflexivity.
  - unfold key_part in Hk. unfold value_part in Hv. rewrite Hk, Hv. apply IH.
Qed.

(** When the URL has a fragment, the page defines [_OAuthVarPairs] and
    every item of the fragment can be decoded, construction returns a
    session: its counters are zero, nothing has been sent, every result
    property is undefined, its services path is ['/services/data/'] and its
    version is the option's, ['43.0'] when none is given. *)
Theorem construction_succeeds
    (h : Host) (url : string) (o : Options) (fragment : string) :
  split "#" url !! 1%nat = Some fragment ->
  declares_OAuthVarPairs h = true ->
  Forall (decodes h) (split "&" fragment) ->
  exists env,
    salesforceSession h url o
    = Normal (env, mkState 0 0
                     (initial_this (or_default (JStr "43.0") (opt_version o))) [])
    /\ _servicesPath env = "/services/data/"
    /\ version env = or_default (JStr "43.0") (opt_version o).
Proof.
  intros Hfragment Hdeclared Hitems. unfold salesforceSession.
  rewrite Hfragment, Hdeclared. simpl.
  destruct (parse_pairs_total h _ Hitems ∅) as [m ->].
  eexists. repeat split.
Qed.

Lemma construction_witness :
  exists env,
    salesforceSession (page dead_transport) redirect_url
      (mkOptions JUndef JUndef (JStr "52.0"))
    = Normal (env, mkState 0 0
                     (initial_this (or_default (JStr "43.0")
                        (opt_version (mkOptions JUndef JUndef (JStr "52.0"))))) [])
    /\ _servicesPath env = "/services/data/"
    /\ version env
       = or_default (JStr "43.0") (opt_version (mkOptions JUndef JUndef (JStr "52.0"))).
Proof.
  apply (construction_succeeds (page dead_transport) redirect_url
           (mkOptions JUndef JUndef (JStr "52.0"))
           "access_token=00D%21AQ&token_type=Bearer&state").
  - reflexivity.
  - reflexivity.
  - change (Forall (decodes (page dead_transport))
              ["access_token=00D%21AQ"; "token_type=Bearer"; "state"]).
    repeat (constructor; [split; eexists; reflexivity|]). constructor.
Defined.

(** *** [_get], [query] and [search] *)

(** [_get] reaches the transport only for a single action whose URL has
    at most 2048 characters, and then as one GET call without payload.  An
    array of actions and a longer URL both end in TypeError with nothing
    sent, whatever the page's top-level [this] is. *)
Theorem get_dispatch
    (h : Host) (env : Env) (action : JsVal) (op : option Obj) (st : State) :
  _get h env action op st
  = if Array_isArray action || (2048 <? String.length (_url env action))%nat
    then (Throw TypeError, st)
    else _request h env "get" action JNull op 0 st.
Proof.
  unfold _get.
  assert (Hcall : call_outer_this_batch h = Throw TypeError).
  { unfold call_outer_this_batch. destruct (outer_this h); reflexivity. }
  rewrite Hcall. destruct (Array_isArray action); [reflexivity|]. reflexivity.
Qed.

Lemma get_self h env action op st r st' :
  _get h env action op st = (r, st') -> self st' = self st.
Proof.
  rewrite get_dispatch. destruct (_ || _).
  - intros H. inversion H. reflexivity.
  - intros H. apply (request_attempts _ _ _ _ _ 3) in H; [|reflexivity].
    destruct H as (n & _ & _ & _ & _ & Hself & _). exact Hself.
Qed.

(** A query answered by one page without cursor: the call resolves to
    the page's records, which are also stored in [records]; the SOQL that
    was run is stored in [soql]; one GET was sent and counted. *)
Theorem query_resolves_to_a_single_page
    (h : Host) (env : Env) (mySoql : JsVal) (parameters : option Obj)
    (st : State) (results page next : JsVal) :
  let executed := or_default (soql (self st)) mySoql in
  let action := JStr ("query?q=" +:+ encodeURIComponent (ToString executed)) in
  let request :=
    build_request env "get" action JNull (Some (_parameters env parameters)) in
  (String.length (_url env action) <= 2048)%nat ->
  fetch h (length (sent st)) request = Some results ->
  get results "records" = Normal page ->
  get results "nextRecordsUrl" = Normal next ->
  loosely_defined next = false ->
  exists st',
    query h env mySoql parameters st = (Normal page, st')
    /\ records (self st') = page
    /\ soql (self st') = executed
    /\ sent st' = (sent st ++ [request])%list
    /\ _requests st' = _requests st + 1
    /\ _requestErrors st' = _requestErrors st.
Proof.
  intros executed action request Hlen Hfetch Hpage Hnext Hdef.
  unfold query. rewrite get_dispatch.
  cbn [self with_self set_soql soql].
  fold executed. fold action.
  apply Nat.ltb_ge in Hlen. rewrite Hlen. cbn [Array_isArray action orb].
  rewrite _request_unfold. cbn zeta. cbn [sent with_self].
  fold request. rewrite Hfetch, Hpage.
  unfold follow_cursors. rewrite Hnext, Hdef.
  eexists. split; [reflexivity|]. repeat split.
Qed.

Lemma query_single_page_witness :
  exists st',
    query (page (constant_transport page2)) demo_env (JStr "SELECT Id FROM Contact")
      None fresh = (Normal (JArr [JObj [("Id", JStr "2")]]), st')
    /\ records (self st') = JArr [JObj [("Id", JStr "2")]]
    /\ soql (self st') = or_default (soql (self fresh)) (JStr "SELECT Id FROM Contact")
    /\ sent st'
       = (sent fresh ++
          [build_request demo_env "get"
             (JStr ("query?q=" +:+ encodeURIComponent
                      (ToString (or_default (soql (self fresh))
                                   (JStr "SELECT Id FROM Contact")))))
             JNull (Some (_parameters demo_env None))])%list
    /\ _requests st' = _requests fresh + 1
    /\ _requestErrors st' = _requestErrors fresh.
Proof.
  apply (query_resolves_to_a_single_page (page (constant_transport page2)) demo_env
           (JStr "SELECT Id FROM Contact") None fresh page2
           (JArr [JObj [("Id", JStr "2")]]) JUndef).
  - apply Nat.leb_le. vm_compute. reflexivity.
  - reflexivity.
  - reflexivity.
  - reflexivity.
  - reflexivity.
Defined.

Lemma get_answer h env action op st v st' :
  _get h env action op st = (Normal v, st') ->
  exists n,
    (n < 4)%nat
    /\ fetch h (length (sent st) + n) (build_request env "get" action JNull op)
       = Some v.
Proof.
  rewrite get_dispatch. destruct (_ || _); [discriminate|].
  intros H. apply (request_attempts _ _ _ _ _ 3) in H; [|reflexivity].
  destruct H as (n & Hn1 & Hn4 & _ & _ & _ & _ & [(v' & Hv & Hf & _) | (Hv & _)]);
    [|discriminate Hv].
  inversion Hv; subst v'. exists (n - 1)%nat. split; [lia | exact Hf].
Qed.

Lemma follow_cursors_normal results u :
  follow_cursors results = Normal u ->
  exists next,
    get results "nextRecordsUrl" = Normal next /\ loosely_defined next = false.
Proof.
  unfold follow_cursors. destruct (get results "nextRecordsUrl") as [next|e];
    [|discriminate].
  destruct (loosely_defined next) eqn:Hdef; [discriminate|].
  intros _. exists next. split; [reflexivity | exact Hdef].
Qed.

(** Whatever the transport does, [query] stores the SOQL it ran in
    [soql] (the argument, or the previous [soql] when the argument is
    undefined) and leaves the other properties of the session alone.  It
    resolves only for an answer of the transport that carries no cursor,
    to the [records] of that answer, which it has stored in [records];
    otherwise it stores [false] there and throws ["Query failed!"], the
    only error it ever throws. *)
Theorem query_outcomes
    (h : Host) (env : Env) (mySoql : JsVal) (parameters : option Obj)
    (st st' : State) (r : Completion JsVal) :
  query h env mySoql parameters st = (r, st') ->
  let executed := or_default (soql (self st)) mySoql in
  let request :=
    build_request env "get"
      (JStr ("query?q=" +:+ encodeURIComponent (ToString executed))) JNull
      (Some (_parameters env parameters)) in
  soql (self st') = executed
  /\ (sosl (self st'), searchRecords (self st'), searchResults (self st'),
      insertResults (self st'), insertReults (self st'), updateResults (self st'),
      this_version (self st'))
     = (sosl (self st), searchRecords (self st), searchResults (self st),
        insertResults (self st), insertReults (self st), updateResults (self st),
        this_version (self st))
  /\ ((r = Normal (records (self st'))
       /\ exists n results next,
            (n < 4)%nat
            /\ fetch h (length (sent st) + n) request = Some results
            /\ get results "records" = Normal (records (self st'))
            /\ get results "nextRecordsUrl" = Normal next
            /\ loosely_defined next = false)
      \/ (r = Throw (Thrown "Query failed!") /\ records (self st') = JBool false)).
Proof.
  intros Hrun executed request. unfold query in Hrun.
  set (st0 := with_self _ st) in Hrun.
  destruct (_get h env _ _ st0) as [[results|e] st1] eqn:Hget.
  - pose proof (get_answer _ _ _ _ _ _ _ Hget) as (n & Hn & Hfetch).
    apply get_self in Hget. subst st0. cbn [self with_self sent soql set_soql] in *.
    destruct (get results "records") as [found|e] eqn:Hfound;
      [destruct (follow_cursors results) as [u|e] eqn:Hcursor|];
      inversion Hrun; subst; cbn [self with_self]; rewrite Hget;
      (split; [reflexivity|]; split; [reflexivity|]);
      [|right; split; reflexivity | right; split; reflexivity].
    left. split; [reflexivity|].
    destruct (follow_cursors_normal _ _ Hcursor) as (next & Hnext & Hdef).
    exists n, results, next. auto.
  - apply get_self in Hget. subst st0. cbn [self with_self] in Hget.
    inversion Hrun; subst; cbn [self with_self]; rewrite Hget.
    split; [reflexivity|]. split; [reflexivity|]. right. split; reflexivity.
Qed.

Lemma query_outcomes_witness :
  let st := with_self (set_soql (JStr "SELECT Name FROM Account")) fresh in
  let out := query (page flaky_transport) demo_env JUndef (Some [("mode", JStr "cors")]) st in
  let executed := or_default (soql (self st)) JUndef in
  let request :=
    build_request demo_env "get"
      (JStr ("query?q=" +:+ encodeURIComponent (ToString executed))) JNull
      (Some (_parameters demo_env (Some [("mode", JStr "cors")]))) in
  soql (self (snd out)) = executed
  /\ (sosl (self (snd out)), searchRecords (self (snd out)), searchResults (self (snd out)),
      insertResults (self (snd out)), insertReults (self (snd out)),
      updateResults (self (snd out)), this_version (self (snd out)))
     = (sosl (self st), searchRecords (self st), searchResults (self st),
        insertResults (self st), insertReults (self st), updateResults (self st),
        this_version (self st))
  /\ ((fst out = Normal (records (self (snd out)))
       /\ exists n results next,
            (n < 4)%nat
            /\ fetch (page flaky_transport) (length (sent st) + n) request = Some results
            /\ get results "records" = Normal (records (self (snd out)))
            /\ get results "nextRecordsUrl" = Normal next
            /\ loosely_defined next = false)
      \/ (fst out = Throw (Thrown "Query failed!")
          /\ records (self (snd out)) = JBool false)).
Proof.
  intros st out.
  apply (query_outcomes (page flaky_transport) demo_env JUndef
           (Some [("mode", JStr "cors")]) st (snd out) (fst out)).
  subst out st. vm_compute. reflexivity.
Defined.

(** [search] stores the SOSL it ran in [sosl].  When it does not fail it
    resolves to [this.searchResults] as it was before the call, not to the
    records it fetched: those, the [searchRecords] of the transport's
    answer, go to the property [searchRecords].  When it fails it stores
    [false] in [searchRecords] and throws ["Search failed!"]. *)
Theorem search_outcomes
    (h : Host) (env : Env) (mySosl : JsVal) (parameters : option Obj)
    (st st' : State) (r : Completion JsVal) :
  search h env mySosl parameters st = (r, st') ->
  let executed := or_default (sosl (self st)) mySosl in
  let request :=
    build_request env "get"
      (JStr ("search?q=" +:+ encodeURIComponent (ToString executed))) JNull
      (Some (_parameters env parameters)) in
  sosl (self st') = executed
  /\ searchResults (self st') = searchResults (self st)
  /\ ((r = Normal (searchResults (self st))
       /\ exists n results,
            (n < 4)%nat
            /\ fetch h (length (sent st) + n) request = Some results
            /\ get results "searchRecords" = Normal (searchRecords (self st')))
      \/ (r = Throw (Thrown "Search failed!")
          /\ searchRecords (self st') = JBool false)).
Proof.
  intros Hrun executed request. unfold search in Hrun.
  set (st0 := with_self _ st) in Hrun.
  destruct (_get h env _ _ st0) as [[results|e] st1] eqn:Hget.
  - pose proof (get_answer _ _ _ _ _ _ _ Hget) as (n & Hn & Hfetch).
    apply get_self in Hget. subst st0. cbn [self with_self sent sosl set_sosl] in *.
    destruct (get results "searchRecords") as [found|e] eqn:Hfound;
      [destruct (follow_cursors results)|];
      inversion Hrun; subst; cbn [self with_self]; rewrite Hget;
      (split; [reflexivity|]; split; [reflexivity|]);
      [left; split; [reflexivity | exists n, results; auto]
      | right; split; reflexivity | right; split; reflexivity].
  - apply get_self in Hget. subst st0. cbn [self with_self] in Hget.
    inversion Hrun; subst; cbn [self with_self]; rewrite Hget.
    split; [reflexivity|]. split; [reflexivity|]. right. split; reflexivity.
Qed.

Lemma search_outcomes_witness :
  let out := search (page (constant_transport
                             (JObj [("searchRecords", JArr [JObj [("Id", JStr "7")]])])))
               demo_env (JStr "FIND {Arthur Dent}") None fresh in
  let executed := or_default (sosl (self fresh)) (JStr "FIND {Arthur Dent}") in
  let request :=
    build_request demo_env "get"
      (JStr ("search?q=" +:+ encodeURIComponent (ToString executed))) JNull
      (Some (_parameters demo_env None)) in
  sosl (self (snd out)) = executed
  /\ searchResults (self (snd out)) = searchResults (self fresh)
  /\ ((fst out = Normal (searchResults (self fresh))
       /\ exists n results,
            (n < 4)%nat
            /\ fetch (page (constant_transport
                              (JObj [("searchRecords", JArr [JObj [("Id", JStr "7")]])])))
                 (length (sent fresh) + n) request = Some results
            /\ get results "searchRecords" = Normal (searchRecords (self (snd out))))
      \/ (fst out = Throw (Thrown "Search failed!")
          /\ searchRecords (self (snd out)) = JBool false)).
Proof.
  intros out.
  apply (search_outcomes (page (constant_transport
                                  (JObj [("searchRecords", JArr [JObj [("Id", JStr "7")]])])))
           demo_env (JStr "FIND {Arthur Dent}") None fresh (snd out) (fst out)).
  subst out. vm_compute. reflexivity.
Defined.

(** *** [batch] *)





(** When the first entry has a method, the entries are submitted as
    they are, also those that are bare paths: the first chunk posted
    carries the first 25 entries unchanged, and what is left of the
    caller's array is a suffix of the array given. *)
Theorem batch_explicit_entries_are_sent_as_given
    (h : Host) (env : Env) (requests : list JsVal) (op : option Obj)
    (st st' : State) (r : Completion JsVal) (arr : list JsVal) (m : JsVal) :
  get (default JUndef (head requests)) "method" = Normal m ->
  truthy m = true ->
  batch h env requests op st = (r, st', arr) ->
  (exists k, arr = drop k requests)
  /\ exists more,
      sent st' = (sent st ++
        build_request env "post" (JStr "composite/batch/")
          (JObj [("batchRequests", JArr (take 25 requests))]) op :: more)%list.
Proof.
  intros Hm Htruthy Hrun. unfold batch in Hrun. rewrite Hm, Htruthy in Hrun.
  cbn [negb] in Hrun.
  destruct requests as [|x xs]; [discriminate Hm|].
  destruct (batch_loop h env op (x :: xs) (JBool false) st)
    as [[r1 st1] arr1] eqn:Hloop.
  eapply batch_loop_trace in Hloop; [|apply Nat.le_refl].
  destruct Hloop as (Hk & _ & Hsent).
  destruct r1; inversion Hrun; subst; split; assumption.
Qed.

Lemma batch_explicit_witness :
  let requests :=
    [JObj [("method", JStr "DELETE"); ("url", JStr "v43.0/sobjects/Contact/003A")];
     JStr "limits"] in
  let out := batch (page batch_transport) demo_env requests None fresh in
  (exists k, snd out = drop k requests)
  /\ exists more,
      sent (snd (fst out)) = (sent fresh ++
        build_request demo_env "post" (JStr "composite/batch/")
          (JObj [("batchRequests", JArr (take 25 requests))]) None :: more)%list.
Proof.
  intros requests out.
  apply (batch_explicit_entries_are_sent_as_given (page batch_transport) demo_env
           requests None fresh (snd (fst out)) (fst (fst out)) (snd out) (JStr "DELETE")).
  - reflexivity.
  - reflexivity.
  - subst out requests. vm_compute. reflexivity.
Defined.

Lemma built_request_wire env method action payload op :
  req_url (build_request env method action payload op) = _url env action
  /\ method_of (build_request env method action payload op) = JStr method
  /\ authorization_of (build_request env method action payload op)
     = JStr (ToString (var env "token_type") +:+ " "
             +:+ ToString (var env "access_token")).
Proof.
  split; [reflexivity|]. unfold method_of, authorization_of, build_request.
  cbn [req_init].
  rewrite (request_init_fields env method payload op "method").
  rewrite (request_init_fields env method payload op "headers").
  split; [reflexivity|]. simpl. destruct (truthy payload); reflexivity.
Qed.

Lemma built_request_body env method action (k : string) (items : list JsVal) op :
  body_of (build_request env method action (JObj [(k, JArr items)]) op)
  = JObj [(k, JArr items)].
Proof.
  unfold body_of, build_request. cbn [req_init].
  rewrite (request_init_fields env method _ op "body"). reflexivity.
Qed.

Lemma sub_requests_of_built env method action (chunk : list JsVal) op :
  sub_requests_of
    (build_request env method action (JObj [("batchRequests", JArr chunk)]) op)
  = chunk.
Proof. unfold sub_requests_of. rewrite built_request_body. reflexivity. Qed.

Lemma records_of_built env method action (chunk : list JsVal) op :
  records_of (build_request env method action (JObj [("records", JArr chunk)]) op)
  = chunk.
Proof. unfold records_of. rewrite built_request_body. reflexivity. Qed.

Lemma chunk_length (size : nat) (x : JsVal) (xs : list JsVal) :
  (1 <= size)%nat ->
  (1 <= length (take size (x :: xs)) <= size)%nat.
Proof. intros Hsize. rewrite length_take. simpl. lia. Qed.

(** With a transport that always answers, the chunks posted by the loop
    are the array cut into consecutive pieces of 1 to 25 entries. *)
Lemma batch_loop_partition h env (n : nat) :
  never_failing h ->
  forall requests, (length requests <= n)%nat ->
  forall op br st v st' arr,
    batch_loop h env op requests br st = (Normal v, st', arr) ->
    exists new,
      sent st' = (sent st ++ new)%list
      /\ List.concat (map sub_requests_of new) = requests
      /\ Forall (fun q =>
           req_url q = _url env (JStr "composite/batch/")
           /\ method_of q = JStr "post"
           /\ (1 <= length (sub_requests_of q) <= 25)%nat) new.
Proof.
  intros Hnf. induction n as [|n IH]; intros requests Hlen op br st v st' arr Hrun;
    destruct requests as [|x xs]; try (simpl in Hlen; lia).
  1, 2: simp batch_loop in Hrun; inversion Hrun; subst; exists [];
        rewrite app_nil_r; repeat split; constructor.
  rewrite batch_loop_cons in Hrun.
  destruct (post_never_failing h env (JStr "composite/batch/")
              (JObj [("batchRequests", JArr (take 25 (x :: xs)))]) op st Hnf)
    as [resp Hpost].
  rewrite Hpost in Hrun.
  destruct (keep_response br resp) as [kept|e]; [|discriminate Hrun].
  apply IH in Hrun; [|rewrite length_drop; simpl in Hlen |- *; lia].
  destruct Hrun as (new & Hsent & Hparts & Hall).
  set (req := build_request env "post" (JStr "composite/batch/")
                (JObj [("batchRequests", JArr (take 25 (x :: xs)))]) op) in *.
  exists (req :: new). split; [|split].
  - rewrite Hsent. simpl. rewrite <- app_assoc. reflexivity.
  - cbn [map List.concat]. rewrite Hparts. subst req.
    rewrite sub_requests_of_built. apply take_drop.
  - constructor; [|exact Hall]. subst req.
    destruct (built_request_wire env "post" (JStr "composite/batch/")
                (JObj [("batchRequests", JArr (take 25 (x :: xs)))]) op)
      as (Hurl & Hmethod & _).
    split; [exact Hurl|]. split; [exact Hmethod|].
    rewrite sub_requests_of_built. apply chunk_length. lia.
Qed.

(** With a transport that never fails, a [batch] that completes has
    posted the sub-requests (rewritten into GET sub-requests when the first
    entry has no method, as given otherwise) in chunks that, put end to end
    in the order sent, are the whole array: no sub-request is dropped,
    repeated or reordered, and each chunk is a POST to the composite-batch
    endpoint with 1 to 25 sub-requests. *)
Theorem batch_chunks_partition_the_array
    (h : Host) (env : Env) (requests : list JsVal) (op : option Obj)
    (st st' : State) (v m : JsVal) (arr : list JsVal) :
  never_failing h ->
  get (default JUndef (head requests)) "method" = Normal m ->
  batch h env requests op st = (Normal v, st', arr) ->
  exists new,
    sent st' = (sent st ++ new)%list
    /\ List.concat (map sub_requests_of new)
       = (if truthy m then requests else map (as_get env) requests)
    /\ Forall (fun q =>
         req_url q = _url env (JStr "composite/batch/")
         /\ method_of q = JStr "post"
         /\ (1 <= length (sub_requests_of q) <= 25)%nat) new.
Proof.
  intros Hnf Hm Hrun. unfold batch in Hrun. rewrite Hm in Hrun.
  destruct (batch_loop h env op _ (JBool false) st) as [[r1 st1] arr1] eqn:Hloop.
  destruct r1 as [br|e]; [|discriminate Hrun].
  inversion Hrun; subst v st' arr.
  eapply (batch_loop_partition h env _ Hnf) in Hloop; [|apply Nat.le_refl].
  destruct Hloop as (new & Hsent & Hparts & Hall).
  exists new. split; [exact Hsent|]. split; [|exact Hall].
  rewrite Hparts. destruct (truthy m); reflexivity.
Qed.

Lemma batch_partition_witness :
  let out := batch (page batch_transport) demo_env (paths 60) None fresh in
  exists new,
    sent (snd (fst out)) = (sent fresh ++ new)%list
    /\ List.concat (map sub_requests_of new)
       = (if truthy JUndef then paths 60 else map (as_get demo_env) (paths 60))
    /\ Forall (fun q =>
         req_url q = _url demo_env (JStr "composite/batch/")
         /\ method_of q = JStr "post"
         /\ (1 <= length (sub_requests_of q) <= 25)%nat) new.
Proof.
  intros out.
  apply (batch_chunks_partition_the_array (page batch_transport) demo_env (paths 60)
           None fresh (snd (fst out))
           (JObj [("hasErrors", JBool false);
                  ("results", JArr (map sub_result (map (as_get demo_env) (paths 25))))])
           JUndef (snd out)).
  - intros n r. discriminate.
  - reflexivity.
  - subst out. vm_compute. reflexivity.
Defined.

(** Once a truthy response is kept, the loop returns it. *)
Lemma batch_loop_keeps h env (n : nat) :
  forall requests, (length requests <= n)%nat ->
  forall op br st v st' arr,
    truthy br = true ->
    batch_loop h env op requests br st = (Normal v, st', arr) ->
    v = br.
Proof.
  induction n as [|n IH]; intros requests Hlen op br st v st' arr Hbr Hrun;
    destruct requests as [|x xs]; try (simpl in Hlen; lia).
  1, 2: simp batch_loop in Hrun; inversion Hrun; reflexivity.
  rewrite batch_loop_cons in Hrun.
  destruct (_post h env _ _ op st) as [[resp|e] st1]; [|discriminate Hrun].
  unfold keep_response in Hrun. rewrite Hbr in Hrun. cbn [negb] in Hrun.
  destruct (get br "results") as [results|e]; [|discriminate Hrun].
  destruct (get resp "results") as [more|e]; [|discriminate Hrun].
  destruct (has_concat results); [|discriminate Hrun].
  apply IH in Hrun; [exact Hrun | | exact Hbr].
  rewrite length_drop. simpl in Hlen |- *. lia.
Qed.

(** What a completed [batch] resolves to: the transport's answer to the
    first chunk, when that answer is truthy.  The answers to later chunks
    are read but are not part of the value returned. *)
Theorem batch_resolves_to_the_first_answer
    (h : Host) (env : Env) (requests : list JsVal) (op : option Obj)
    (st st' : State) (v m : JsVal) (arr : list JsVal) :
  get (default JUndef (head requests)) "method" = Normal m ->
  batch h env requests op st = (Normal v, st', arr) ->
  let submitted := if truthy m then requests else map (as_get env) requests in
  let first_chunk :=
    build_request env "post" (JStr "composite/batch/")
      (JObj [("batchRequests", JArr (take 25 submitted))]) op in
  exists n answer,
    (n < 4)%nat
    /\ fetch h (length (sent st) + n) first_chunk = Some answer
    /\ (truthy answer = true -> v = answer).
Proof.
  intros Hm Hrun submitted first_chunk. unfold batch in Hrun. rewrite Hm in Hrun.
  assert (Hsub : (if negb (truthy m) then map (as_get env) requests else requests)
                 = submitted).
  { subst submitted. destruct (truthy m); reflexivity. }
  rewrite Hsub in Hrun.
  assert (Hne : submitted <> []).
  { subst submitted. destruct requests; [discriminate Hm|].
    destruct (truthy m); discriminate. }
  destruct submitted as [|x xs] eqn:Hsubmitted; [congruence|].
  destruct (batch_loop h env op (x :: xs) (JBool false) st)
    as [[r1 st1] arr1] eqn:Hloop.
  destruct r1 as [br|e]; [|discriminate Hrun].
  inversion Hrun; subst v st' arr.
  rewrite batch_loop_cons in Hloop.
  destruct (_post h env _ _ op st) as [[resp|e] st2] eqn:Hpost; [|discriminate Hloop].
  unfold _post in Hpost.
  apply (request_attempts _ _ _ _ _ 3) in Hpost; [|reflexivity].
  destruct Hpost as (n & Hn1 & Hn4 & _ & _ & _ & _ &
                     [(v' & Hv & Hf & _) | (Hv & _)]); [|discriminate Hv].
  inversion Hv; subst v'.
  exists (n - 1)%nat, resp. split; [lia|]. split; [exact Hf|].
  intros Htruthy. cbn [keep_response truthy negb] in Hloop.
  eapply batch_loop_keeps in Hloop; [exact Hloop | apply Nat.le_refl | exact Htruthy].
Qed.

Lemma batch_first_answer_witness :
  let out := batch (page batch_transport) demo_env (paths 60) None fresh in
  let answer :=
    JObj [("hasErrors", JBool false);
          ("results", JArr (map sub_result (map (as_get demo_env) (paths 25))))] in
  let submitted := if truthy JUndef then paths 60 else map (as_get demo_env) (paths 60) in
  let first_chunk :=
    build_request demo_env "post" (JStr "composite/batch/")
      (JObj [("batchRequests", JArr (take 25 submitted))]) None in
  exists n answer',
    (n < 4)%nat
    /\ fetch (page batch_transport) (length (sent fresh) + n) first_chunk = Some answer'
    /\ (truthy answer' = true -> answer = answer').
Proof.
  intros out answer.
  apply (batch_resolves_to_the_first_answer (page batch_transport) demo_env (paths 60)
           None fresh (snd (fst out)) answer JUndef (snd out)).
  - reflexivity.
  - subst out answer. vm_compute. reflexivity.
Defined.

(** *** [insert] and [update] *)

Lemma chunks_drop (size n : nat) :
  (1 <= size)%nat ->
  (chunks (S n - size) size + 1 = chunks (S n) size)%nat.
Proof.
  intros Hsize. unfold chunks.
  destruct (le_lt_dec size n) as [Hbig|Hsmall].
  - replace (S n + size - 1)%nat with (S n - size + size - 1 + 1 * size)%nat by lia.
    rewrite Nat.div_add by lia. lia.
  - replace (S n - size)%nat with 0%nat by lia.
    rewrite (Nat.div_small (0 + size - 1) size) by lia.
    replace (S n + size - 1)%nat with (n + 1 * size)%nat by lia.
    rewrite Nat.div_add by lia. rewrite Nat.div_small by lia. reflexivity.
Qed.

(** The guard passes an array whose first record has a type, and reads
    that type. *)
Lemma typed_records_check (message : string) (first : JsVal) (rest : list JsVal) :
  truthy (type_of first) = true ->
  check_records message (JArr (first :: rest)) = Normal (type_of first).
Proof.
  intros Htype. destruct first as [| | | | | |fields]; try discriminate Htype.
  unfold check_records, type_of in *. simpl.
  destruct (lookup_field "attributes" fields) as [[| | | | | |attributes]|];
    try discriminate Htype.
  simpl. rewrite Htype. reflexivity.
Qed.


(** What the guard lets through. *)
Lemma check_records_normal (message : string) (v type : JsVal) :
  check_records message v = Normal type ->
  exists first rest,
    v = JArr (first :: rest) /\ type = type_of first /\ truthy type = true.
Proof.
  unfold check_records. intros H.
  destruct v as [| |b|z|s|items|fields]; try discriminate H;
    try (simpl in H; destruct (negb _); discriminate H).
  destruct items as [|first rest]; [discriminate H|].
  exists first, rest. split; [reflexivity|].
  simpl in H.
  destruct first as [| |b|z|s|items|fields]; try discriminate H.
  simpl in H. unfold type_of.
  destruct (lookup_field "attributes" fields) as [[| |b|z|s|items|attributes]|];
    simpl in H; try discriminate H;
    try (destruct (negb _); discriminate H).
  destruct (truthy (default JUndef (lookup_field "type" attributes))) eqn:Htype;
    [|discriminate H].
  inversion H; subst. split; [reflexivity | exact Htype].
Qed.

Lemma check_records_throw (message : string) (v : JsVal) (e : Exn) :
  check_records message v = Throw e -> e = ErrorObj message \/ e = TypeError.
Proof.
  unfold check_records. intros H.
  destruct v as [| |b|z|s|items|fields]; simpl in H;
    try (inversion H; left; reflexivity);
    try (destruct (negb _); inversion H; left; reflexivity).
  destruct items as [|first rest]; simpl in H.
  - inversion H. right. reflexivity.
  - destruct (get first "attributes") as [attributes|e1] eqn:H1.
    + destruct (truthy attributes) eqn:Ht; simpl in H;
        [|inversion H; left; reflexivity].
      destruct (get attributes "type") as [type|e2] eqn:H2.
      * destruct (negb (truthy type)); inversion H. left. reflexivity.
      * destruct attributes; try discriminate Ht; discriminate H2.
    + destruct first; inversion H1; inversion H; subst; right; reflexivity.
Qed.






Lemma post_answered h env action payload op st v :
  fetch h (length (sent st)) (build_request env "post" action payload op) = Some v ->
  _post h env action payload op st
  = (Normal v, record_call (build_request env "post" action payload op)
                 (incr_requests st)).
Proof.
  intros Hf. unfold _post. rewrite _request_unfold. cbn zeta. rewrite Hf. reflexivity.
Qed.

(** The loop of [update] with a transport that always answers: every
    chunk is posted once, and [updateResults] accumulates the answers in
    the order of the chunks. *)
Lemma update_loop_trace h env (n : nat) :
  never_failing h ->
  forall oRecords, (length oRecords <= n)%nat ->
  forall st acc,
    updateResults (self st) = JArr acc ->
    exists st' new,
      update_loop h env oRecords st = (Normal tt, st', [])
      /\ sent st' = (sent st ++ new)%list
      /\ List.concat (map records_of new) = oRecords
      /\ length new = chunks (length oRecords) 200
      /\ Forall (fun q =>
           req_url q = _url env (JStr "composite/sobjects?_HttpMethod=PATCH")
           /\ method_of q = JStr "post"
           /\ (1 <= length (records_of q) <= 200)%nat) new
      /\ _requests st' = _requests st + Z.of_nat (length new)
      /\ _requestErrors st' = _requestErrors st
      /\ self st'
         = set_updateResults
             (JArr (fold_left concat (answers h (length (sent st)) new) acc))
             (self st).
Proof.
  intros Hnf. induction n as [|n IH]; intros oRecords Hlen st acc Hacc;
    destruct oRecords as [|x xs]; try (simpl in Hlen; lia).
  1, 2: exists st, []; simp update_loop; rewrite !app_nil_r;
        repeat split; try constructor; simpl; try lia;
        destruct st as [? ? [] ?]; simpl in *; subst; reflexivity.
  rewrite update_loop_cons.
  set (req := build_request env "post" (JStr "composite/sobjects?_HttpMethod=PATCH")
                (JObj [("records", JArr (take 200 (x :: xs)))]) None).
  destruct (fetch h (length (sent st)) req) as [resp|] eqn:Hf;
    [|exfalso; exact (Hnf _ _ Hf)].
  rewrite (post_answered _ _ _ _ _ _ _ Hf). fold req.
  set (st1 := with_self _ _).
  assert (Hlen1 : length (sent st1) = S (length (sent st))).
  { subst st1. simpl. rewrite length_app. simpl. lia. }
  destruct (IH (drop 200 (x :: xs)) ltac:(rewrite length_drop; simpl in Hlen |- *; lia)
              st1 (concat acc resp))
    as (st' & new & Hrun & Hsent & Hparts & Hcount & Hall & Hreq & Herr & Hself).
  { subst st1. cbn [self with_self record_call incr_requests
                    updateResults set_updateResults items_of].
    rewrite Hacc. reflexivity. }
  exists st', (req :: new). split; [exact Hrun|]. split; [|split; [|split; [|split]]].
  - rewrite Hsent. subst st1. simpl. rewrite <- app_assoc. reflexivity.
  - cbn [map List.concat]. rewrite Hparts. subst req.
    rewrite records_of_built. apply take_drop.
  - cbn [length]. rewrite Hcount, length_drop. cbn [length].
    pose proof (chunks_drop 200 (length xs)). lia.
  - constructor; [|exact Hall]. subst req.
    destruct (built_request_wire env "post"
                (JStr "composite/sobjects?_HttpMethod=PATCH")
                (JObj [("records", JArr (take 200 (x :: xs)))]) None)
      as (Hurl & Hmethod & _).
    split; [exact Hurl|]. split; [exact Hmethod|].
    rewrite records_of_built. apply chunk_length. lia.
  - split; [|split].
    + rewrite Hreq. subst st1. cbn [length]. simpl. lia.
    + rewrite Herr. subst st1. reflexivity.
    + rewrite Hself, Hlen1. subst st1. cbn [answers fold_left]. rewrite Hf.
      reflexivity.
Qed.

(** [update] on an array whose first record has a type, with a
    transport that never fails: every record is posted once, in
    consecutive chunks of 1 to 200, to
    [composite/sobjects?_HttpMethod=PATCH]; each chunk is counted as one
    request; the call resolves to [updateResults], the in-order
    concatenation of the answers to all chunks; the caller's array is
    emptied.  No record identifier is asked for. *)
Theorem update_merges_every_answer
    (h : Host) (env : Env) (first : JsVal) (rest : list JsVal) (st : State) :
  never_failing h ->
  truthy (type_of first) = true ->
  exists st' new,
    update h env (JArr (first :: rest)) st
    = (Normal (JArr (fold_left concat (answers h (length (sent st)) new) [])),
       st', JArr [])
    /\ updateResults (self st')
       = JArr (fold_left concat (answers h (length (sent st)) new) [])
    /\ sent st' = (sent st ++ new)%list
    /\ List.concat (map records_of new) = first :: rest
    /\ length new = chunks (S (length rest)) 200
    /\ Forall (fun q =>
         req_url q = _url env (JStr "composite/sobjects?_HttpMethod=PATCH")
         /\ method_of q = JStr "post"
         /\ (1 <= length (records_of q) <= 200)%nat) new
    /\ _requests st' = _requests st + Z.of_nat (chunks (S (length rest)) 200).
Proof.
  intros Hnf Htype. unfold update.
  change (promote (JArr (first :: rest))) with (JArr (first :: rest)).
  rewrite (typed_records_check _ first rest Htype). cbn [items_of].
  destruct (update_loop_trace h env _ Hnf (first :: rest) (Nat.le_refl _)
              (with_self (set_updateResults (JArr [])) st) [] eq_refl)
    as (st' & new & Hrun & Hsent & Hparts & Hcount & Hall & Hreq & Herr & Hself).
  rewrite Hrun. cbn [length] in Hcount. cbn [sent with_self] in *.
  exists st', new. rewrite Hself, Hreq, Hcount.
  repeat split; assumption.
Qed.

Lemma update_merges_witness :
  exists st' new,
    update (page (constant_transport (JArr [JObj [("success", JBool true)]])))
      demo_env (JArr (contact "A" :: [contact "B"])) fresh
    = (Normal (JArr (fold_left concat
                       (answers (page (constant_transport
                                         (JArr [JObj [("success", JBool true)]])))
                          (length (sent fresh)) new) [])),
       st', JArr [])
    /\ updateResults (self st')
       = JArr (fold_left concat
                 (answers (page (constant_transport
                                   (JArr [JObj [("success", JBool true)]])))
                    (length (sent fresh)) new) [])
    /\ sent st' = (sent fresh ++ new)%list
    /\ List.concat (map records_of new) = contact "A" :: [contact "B"]
    /\ length new = chunks (S (length [contact "B"])) 200
    /\ Forall (fun q =>
         req_url q = _url demo_env (JStr "composite/sobjects?_HttpMethod=PATCH")
         /\ method_of q = JStr "post"
         /\ (1 <= length (records_of q) <= 200)%nat) new
    /\ _requests st' = _requests fresh + Z.of_nat (chunks (S (length [contact "B"])) 200).
Proof.
  apply (update_merges_every_answer
           (page (constant_transport (JArr [JObj [("success", JBool true)]])))
           demo_env (contact "A") [contact "B"] fresh).
  - intros n r. discriminate.
  - reflexivity.
Defined.

Lemma update_loop_sent h env (n : nat) :
  forall oRecords, (length oRecords <= n)%nat ->
  forall st r st' remaining,
    update_loop h env oRecords st = (r, st', remaining) ->
    (length (sent st) <= length (sent st'))%nat
    /\ (forall e, r = Throw e ->
          e = request_failed "post"
          /\ (length (sent st) + 4 <= length (sent st'))%nat).
Proof.
  induction n as [|n IH]; intros oRecords Hlen st r st' remaining Hrun;
    destruct oRecords as [|x xs]; try (simpl in Hlen; lia).
  1, 2: simp update_loop in Hrun; inversion Hrun; subst;
        split; [lia | intros e He; discriminate He].
  rewrite update_loop_cons in Hrun.
  destruct (_post h env _ _ None st) as [[resp|e0] st1] eqn:Hpost;
    unfold _post in Hpost;
    apply (request_attempts _ _ _ _ _ 3) in Hpost; try reflexivity;
    destruct Hpost as (k & Hk1 & Hk4 & Hsent & _ & _ & _ & Hlast).
  - apply IH in Hrun; [|rewrite length_drop; simpl in Hlen |- *; lia].
    cbn [sent with_self] in Hrun. rewrite Hsent, length_app, repeat_length in Hrun.
    destruct Hrun as [Hle Herr]. split; [lia|].
    intros e He. destruct (Herr e He) as [-> Hfour]. split; [reflexivity | lia].
  - inversion Hrun; subst. rewrite Hsent, length_app, repeat_length.
    destruct Hlast as [(v & Hv & _) | (Hv & Hfour & _)]; [discriminate Hv|].
    split; [lia|]. intros e He. inversion He; subst. inversion Hv; subst.
    split; [reflexivity | lia].
Qed.

(** Every way a call to [update] can end.  It resolves to the value it
    stored in [updateResults]; or the guard rejects the input before
    anything is sent (the state and the argument are untouched); or, after
    a chunk has failed on all of its four attempts, it stores [false] in
    [updateResults] and throws ["Salesforce <type> update failed!"] with
    the type of the first record. *)
Theorem update_outcomes
    (h : Host) (env : Env) (v : JsVal) (st st' : State)
    (r : Completion JsVal) (argument : JsVal) :
  update h env v st = (r, st', argument) ->
  r = Normal (updateResults (self st'))
  \/ (st' = st /\ argument = v
      /\ (r = Throw (ErrorObj "No valid records to update!") \/ r = Throw TypeError))
  \/ (exists first rest,
        promote v = JArr (first :: rest)
        /\ truthy (type_of first) = true
        /\ r = Throw (Thrown ("Salesforce " +:+ ToString (type_of first)
                              +:+ " update failed!"))
        /\ updateResults (self st') = JBool false
        /\ (length (sent st) + 4 <= length (sent st'))%nat).
Proof.
  unfold update. intros Hrun.
  destruct (check_records _ (promote v)) as [type|e] eqn:Hcheck.
  - destruct (check_records_normal _ _ _ Hcheck) as (first & rest & Hv & -> & Htype).
    destruct (update_loop h env _ _) as [[r1 st1] remaining] eqn:Hloop.
    apply (update_loop_sent h env _ _ (Nat.le_refl _)) in Hloop.
    destruct Hloop as [_ Herr].
    destruct r1 as [u|e1]; inversion Hrun; subst.
    + left. reflexivity.
    + right. right. exists first, rest.
      destruct (Herr e1 eq_refl) as [_ Hfour]. cbn [sent with_self] in Hfour.
      repeat split; assumption.
  - inversion Hrun; subst. right. left. split; [reflexivity|]. split; [reflexivity|].
    destruct (check_records_throw _ _ _ Hcheck) as [-> | ->]; [left | right]; reflexivity.
Qed.

Lemma update_outcomes_witness :
  let out := update (page dead_transport) demo_env (contact "A") fresh in
  fst (fst out) = Normal (updateResults (self (snd (fst out))))
  \/ (snd (fst out) = fresh /\ snd out = contact "A"
      /\ (fst (fst out) = Throw (ErrorObj "No valid records to update!")
          \/ fst (fst out) = Throw TypeError))
  \/ (exists first rest,
        promote (contact "A") = JArr (first :: rest)
        /\ truthy (type_of first) = true
        /\ fst (fst out) = Throw (Thrown ("Salesforce " +:+ ToString (type_of first)
                                          +:+ " update failed!"))
        /\ updateResults (self (snd (fst out))) = JBool false
        /\ (length (sent fresh) + 4 <= length (sent (snd (fst out))))%nat).
Proof.
  intros out.
  apply (update_outcomes (page dead_transport) demo_env (contact "A") fresh
           (snd (fst out)) (fst (fst out)) (snd out)).
  subst out. vm_compute. reflexivity.
Defined.

(** [insert] can only fail in its guard: whatever the transport does, a
    call either is rejected before anything is sent, with the state and
    the argument untouched, or resolves to the value it stored in
    [insertReults]. *)
Theorem insert_outcomes
    (h : Host) (env : Env) (v : JsVal) (st st' : State)
    (r : Completion JsVal) (argument : JsVal) :
  insert h env v st = (r, st', argument) ->
  r = Normal (insertReults (self st'))
  \/ (st' = st /\ argument = v
      /\ (r = Throw (ErrorObj "No valid records to insert!") \/ r = Throw TypeError)).
Proof.
  unfold insert. intros Hrun.
  destruct (check_records _ (promote v)) as [type|e] eqn:Hcheck.
  - destruct (insert_loop env _ _ _) as [st1 remaining].
    inversion Hrun; subst. left. reflexivity.
  - inversion Hrun; subst. right. split; [reflexivity|]. split; [reflexivity|].
    destruct (check_records_throw _ _ _ Hcheck) as [-> | ->]; [left | right]; reflexivity.
Qed.

Lemma insert_outcomes_witness :
  let out := insert (page dead_transport) demo_env (JArr [contact "A"]) fresh in
  fst (fst out) = Normal (insertReults (self (snd (fst out))))
  \/ (snd (fst out) = fresh /\ snd out = JArr [contact "A"]
      /\ (fst (fst out) = Throw (ErrorObj "No valid records to insert!")
          \/ fst (fst out) = Throw TypeError)).
Proof.
  intros out.
  apply (insert_outcomes (page dead_transport) demo_env (JArr [contact "A"]) fresh
           (snd (fst out)) (fst (fst out)) (snd out)).
  subst out. vm_compute. reflexivity.
Defined.

(** *** Invariants of a session *)

Lemma accounted_refl env st : accounted env st st.
Proof.
  exists []. rewrite app_nil_r. repeat split; try constructor; simpl; lia.
Qed.

Lemma accounted_trans env st1 st2 st3 :
  accounted env st1 st2 -> accounted env st2 st3 -> accounted env st1 st3.
Proof.
  intros (new1 & Hs1 & Hw1 & He1 & Hr1 & Hc1) (new2 & Hs2 & Hw2 & He2 & Hr2 & Hc2).
  exists (new1 ++ new2)%list. rewrite Hs2, Hs1, <- app_assoc, length_app.
  split; [reflexivity|]. split; [apply Forall_app; split; assumption|].
  repeat split; lia.
Qed.

Lemma accounted_with_self env f g st st' :
  accounted env st st' -> accounted env (with_self f st) (with_self g st').
Proof. intros H. exact H. Qed.

Lemma wire_repeat env (q : Request) (n : nat) :
  wire env q -> Forall (wire env) (repeat q n).
Proof. intros Hq. induction n; simpl; constructor; assumption. Qed.

Lemma built_request_on_the_wire env method action payload op :
  method = "get" \/ method = "post" ->
  wire env (build_request env method action payload op).
Proof.
  intros Hmethod.
  destruct (built_request_wire env method action payload op) as (Hurl & Hm & Hauth).
  split; [|split; [exact Hauth | exists action; exact Hurl]].
  rewrite Hm. destruct Hmethod as [-> | ->]; [left | right]; reflexivity.
Qed.

Lemma request_accounted h env method action payload op st r st' :
  method = "get" \/ method = "post" ->
  _request h env method action payload op 0 st = (r, st') ->
  accounted env st st'
  /\ _requests st' - _requests st
     = Z.of_nat (length (sent st') - length (sent st)).
Proof.
  intros Hmethod Hrun. apply (request_attempts _ _ _ _ _ 3) in Hrun; [|reflexivity].
  destruct Hrun as (n & Hn1 & Hn4 & Hsent & Hreq & _ & _ & Hlast).
  split.
  - exists (repeat (build_request env method action payload op) n).
    split; [exact Hsent|].
    split; [apply wire_repeat, built_request_on_the_wire, Hmethod|].
    rewrite repeat_length.
    destruct Hlast as [(v & _ & _ & Herr) | (_ & _ & _ & Herr)]; repeat split; lia.
  - rewrite Hsent, length_app, repeat_length. lia.
Qed.

Lemma get_accounted h env action op st r st' :
  _get h env action op st = (r, st') -> accounted env st st'.
Proof.
  rewrite get_dispatch. destruct (_ || _).
  - intros H. inversion H. apply accounted_refl.
  - intros H. apply request_accounted in H; [apply H | left; reflexivity].
Qed.

Lemma query_accounted h env mySoql parameters st :
  accounted env st (snd (query h env mySoql parameters st)).
Proof.
  unfold query. set (st0 := with_self _ st).
  destruct (_get h env _ _ st0) as [[results|e] st1] eqn:Hget;
    apply get_accounted in Hget;
    apply (accounted_with_self env (fun t => t) (fun t => t)) in Hget.
  - destruct (get results "records"); [destruct (follow_cursors results)|];
      exact Hget.
  - exact Hget.
Qed.

Lemma search_accounted h env mySosl parameters st :
  accounted env st (snd (search h env mySosl parameters st)).
Proof.
  unfold search. set (st0 := with_self _ st).
  destruct (_get h env _ _ st0) as [[results|e] st1] eqn:Hget;
    apply get_accounted in Hget;
    apply (accounted_with_self env (fun t => t) (fun t => t)) in Hget.
  - destruct (get results "searchRecords"); [destruct (follow_cursors results)|];
      exact Hget.
  - exact Hget.
Qed.

(** The chunk loop of [batch] counts strictly fewer requests than it
    makes calls, which leaves room for the increment that follows it. *)
Lemma batch_loop_accounted h env (n : nat) :
  forall requests, (length requests <= n)%nat ->
  forall op br st r st' arr,
    batch_loop h env op requests br st = (r, st', arr) ->
    exists new,
      sent st' = (sent st ++ new)%list
      /\ Forall (wire env) new
      /\ 0 <= _requestErrors st' - _requestErrors st
      /\ _requestErrors st' - _requestErrors st <= _requests st' - _requests st
      /\ _requests st' - _requests st <= Z.of_nat (length new)
      /\ (forall v, r = Normal v -> requests <> [] ->
            _requests st' - _requests st + 1 <= Z.of_nat (length new)).
Proof.
  induction n as [|n IH]; intros requests Hlen op br st r st' arr Hrun;
    destruct requests as [|x xs]; try (simpl in Hlen; lia).
  1, 2: simp batch_loop in Hrun; inversion Hrun; subst; exists [];
        rewrite app_nil_r; repeat split; try constructor; simpl; try lia;
        intros v _ Hne; congruence.
  rewrite batch_loop_cons in Hrun.
  destruct (_post h env _ _ op st) as [[resp|e] st1] eqn:Hpost;
    unfold _post in Hpost;
    apply (request_attempts _ _ _ _ _ 3) in Hpost; try reflexivity;
    destruct Hpost as (k & Hk1 & Hk4 & Hsent & Hreq & _ & _ & Hlast);
    pose proof (wire_repeat env _ k
                  (built_request_on_the_wire env "post" (JStr "composite/batch/")
                     (JObj [("batchRequests", JArr (take 25 (x :: xs)))]) op
                     (or_intror eq_refl))) as Hwire.
  - destruct Hlast as [(v & _ & _ & Herr) | (Hv & _)]; [|discriminate Hv].
    destruct (keep_response br resp) as [kept|e].
    + apply IH in Hrun; [|rewrite length_drop; simpl in Hlen |- *; lia].
      destruct Hrun as (new & Hs & Hw & He & Hr & Hc & _).
      cbn [sent _requests _requestErrors decr_requests] in *.
      eexists. split; [rewrite Hs, Hsent, <- app_assoc; reflexivity|].
      split; [apply Forall_app; split; assumption|].
      rewrite length_app, repeat_length.
      repeat split; try lia; try (intros; lia).
    + inversion Hrun; subst.
      eexists. split; [exact Hsent|]. split; [exact Hwire|].
      rewrite repeat_length.
      repeat split; try lia; try (intros v0 Hv0; discriminate Hv0).
  - destruct Hlast as [(v & Hv & _) | (_ & _ & _ & Herr)]; [discriminate Hv|].
    inversion Hrun; subst.
    eexists. split; [exact Hsent|]. split; [exact Hwire|].
    rewrite repeat_length.
    repeat split; try lia; try (intros v0 Hv0; discriminate Hv0).
Qed.

Lemma batch_accounted h env requests op st :
  accounted env st (snd (fst (batch h env requests op st))).
Proof.
  unfold batch.
  destruct (get (default JUndef (head requests)) "method") as [m|e] eqn:Hm;
    [|apply accounted_refl].
  set (requests' := if negb (truthy m) then map (as_get env) requests else requests).
  assert (Hne : requests' <> []).
  { subst requests'. destruct requests; [discriminate Hm|].
    destruct (negb (truthy m)); discriminate. }
  destruct (batch_loop h env op requests' (JBool false) st)
    as [[r1 st1] arr1] eqn:Hloop.
  apply (batch_loop_accounted h env _ _ (Nat.le_refl _)) in Hloop.
  destruct Hloop as (new & Hs & Hw & He & Hr & Hc & Hroom).
  destruct r1 as [v|e]; cbn [fst snd].
  - specialize (Hroom v eq_refl Hne).
    exists new. cbn [sent _requests _requestErrors incr_requests].
    repeat split; try assumption; lia.
  - exists new. repeat split; assumption.
Qed.

Lemma update_loop_accounted h env (n : nat) :
  forall oRecords, (length oRecords <= n)%nat ->
  forall st r st' remaining,
    update_loop h env oRecords st = (r, st', remaining) ->
    accounted env st st'.
Proof.
  induction n as [|n IH]; intros oRecords Hlen st r st' remaining Hrun;
    destruct oRecords as [|x xs]; try (simpl in Hlen; lia).
  1, 2: simp update_loop in Hrun; inversion Hrun; subst; apply accounted_refl.
  rewrite update_loop_cons in Hrun.
  destruct (_post h env _ _ None st) as [[resp|e] st1] eqn:Hpost;
    unfold _post in Hpost;
    apply request_accounted in Hpost; try (right; reflexivity);
    destruct Hpost as [Hpost _].
  - apply IH in Hrun; [|rewrite length_drop; simpl in Hlen |- *; lia].
    eapply accounted_trans; [exact Hpost | exact Hrun].
  - inversion Hrun; subst. exact Hpost.
Qed.

Lemma update_accounted h env v st :
  accounted env st (snd (fst (update h env v st))).
Proof.
  unfold update.
  destruct (check_records _ (promote v)) as [type|e]; [|apply accounted_refl].
  destruct (update_loop h env _ _) as [[r1 st1] remaining] eqn:Hloop.
  apply (update_loop_accounted h env _ _ (Nat.le_refl _)) in Hloop.
  destruct r1; exact Hloop.
Qed.

Lemma perform_accounted h env o st : accounted env st (perform h env o st).
Proof.
  destruct o; simpl.
  - apply query_accounted.
  - apply search_accounted.
  - apply batch_accounted.
  - apply update_accounted.
Qed.

Lemma perform_all_accounted h env (os : list Operation) :
  forall st, accounted env st (perform_all h env os st).
Proof.
  induction os as [|o os IH]; intros st; simpl.
  - apply accounted_refl.
  - eapply accounted_trans; [apply perform_accounted | apply IH].
Qed.

(** After any sequence of awaited [query], [search], [batch] and
    [update] calls on a new session, whatever the transport did and
    whether the calls resolved or failed: the error counter is at most the
    request counter, and the request counter is at most the number of
    calls made to the transport. *)
Theorem session_counters_stay_ordered
    (h : Host) (env : Env) (os : list Operation) (this : This) :
  let st := perform_all h env os (mkState 0 0 this []) in
  0 <= _requestErrors st
  /\ _requestErrors st <= _requests st
  /\ _requests st <= Z.of_nat (length (sent st)).
Proof.
  intros st.
  destruct (perform_all_accounted h env os (mkState 0 0 this []))
    as (new & Hs & _ & He & Hr & Hc).
  fold st in Hs, He, Hr, Hc. simpl in Hs, He, Hr, Hc.
  rewrite Hs. repeat split; lia.
Qed.

(** Every request such a session ever hands to the transport is a GET
    or a POST (never a PATCH or a DELETE of its own) to a URL built by
    [_url], and carries the Authorization header made of the session's
    [token_type] and [access_token]. *)
Theorem session_requests_are_authorized_gets_and_posts
    (h : Host) (env : Env) (os : list Operation) (this : This) :
  Forall (wire env) (sent (perform_all h env os (mkState 0 0 this []))).
Proof.
  destruct (perform_all_accounted h env os (mkState 0 0 this []))
    as (new & Hs & Hw & _).
  rewrite Hs. exact Hw.
Qed.
